(** * parse_fa.py: FASTA parsing, slicing and tabular output

    A shallow embedding of [src/parse_fa.py].  Python text is a list of
    Unicode code points; the functions that touch the file system or the
    console run in a state-and-exception monad over an explicit [world]. *)

From Stdlib Require Import ZArith NArith List String Ascii Lia Bool Decimal.
From stdpp Require Import gmap list.

Local Open Scope N_scope.

(** ** Text *)

(** A Python [str]: the sequence of its code points. *)
Abbreviation str := (list N).

(** A literal, written as a Rocq string of characters below 256. *)
Definition u (s : string) : str := map N_of_ascii (list_ascii_of_string s).

Definition LF : N := 10.
Definition CR : N := 13.
Definition GT : N := 62.

(** [str.isspace] on one code point: the characters that [str.strip()] and
    [str.split()] treat as whitespace. *)
Definition isspace (c : N) : bool :=
  ((9 <=? c) && (c <=? 13)) || ((28 <=? c) && (c <=? 32))
  || (c =? 133) || (c =? 160) || (c =? 5760)
  || ((8192 <=? c) && (c <=? 8202))
  || (c =? 8232) || (c =? 8233) || (c =? 8239) || (c =? 8287) || (c =? 12288).

Fixpoint lstrip (s : str) : str :=
  match s with
  | [] => []
  | c :: rest => if isspace c then lstrip rest else s
  end.

Definition rstrip (s : str) : str := rev (lstrip (rev s)).

(** [s.strip()] *)
Definition strip (s : str) : str := rstrip (lstrip s).

(** [s.startswith('>')] *)
Definition startswith_gt (s : str) : bool :=
  match s with
  | c :: _ => c =? GT
  | [] => false
  end.

(** Truth value of a [str]: non-empty. *)
Definition truthy (s : str) : bool :=
  match s with [] => false | _ :: _ => true end.

(** [s.split()]: the maximal runs of non-whitespace characters. *)
Fixpoint split (s : str) : list str :=
  match s with
  | [] => []
  | c :: rest =>
      if isspace c then split rest
      else match rest with
           | [] => [[c]]
           | d :: _ =>
               if isspace d then [c] :: split rest
               else match split rest with
                    | w :: ws => (c :: w) :: ws
                    | [] => [[c]]
                    end
           end
  end.

(** [delimiter.join(fields)] *)
Fixpoint join (delimiter : str) (fields : list str) : str :=
  match fields with
  | [] => []
  | [f] => f
  | f :: rest => f ++ delimiter ++ join delimiter rest
  end.

(** Text-mode reading with universal newlines: "\r\n" and a lone "\r"
    both reach the program as "\n". *)
Fixpoint universal_newlines (s : str) : str :=
  match s with
  | [] => []
  | c :: rest =>
      if c =? CR then
        match rest with
        | d :: rest' =>
            if d =? LF then LF :: universal_newlines rest'
            else LF :: universal_newlines rest
        | [] => [LF]
        end
      else c :: universal_newlines rest
  end.

(** [for line in file]: the lines of the text, each with its terminating
    "\n" (the last line may have none). *)
Fixpoint readlines (s : str) : list str :=
  match s with
  | [] => []
  | c :: rest =>
      if c =? LF then [c] :: readlines rest
      else match readlines rest with
           | l :: ls => (c :: l) :: ls
           | [] => [[c]]
           end
  end.

(** ** parse_fasta_file: the loop *)

Record parse_state := ParseState {
  ids : list str;
  sequences : list str;
  current_id : option str;          (* None until the first header *)
  current_sequence : str
}.

(** [if current_id and current_sequence: ids.append(..); sequences.append(..)] *)
Definition flush (st : parse_state) : list str * list str :=
  match current_id st with
  | Some id =>
      if truthy id && truthy (current_sequence st)
      then (ids st ++ [id], sequences st ++ [current_sequence st])
      else (ids st, sequences st)
  | None => (ids st, sequences st)
  end.

(** One iteration of the [for line in file] loop. *)
Definition parse_line (st : parse_state) (line : str) : parse_state :=
  let line := strip line in
  if startswith_gt line then
    let '(ids', sequences') := flush st in
    {| ids := ids'; sequences := sequences';
       current_id := Some (drop 1 line); current_sequence := [] |}
  else
    {| ids := ids st; sequences := sequences st;
       current_id := current_id st;
       current_sequence := current_sequence st ++ line |}.

Definition parse_init : parse_state :=
  {| ids := []; sequences := []; current_id := None; current_sequence := [] |}.

Definition parse_lines (lines : list str) : list str * list str :=
  flush (fold_left parse_line lines parse_init).

(** What the parser computes from the decoded content of the file. *)
Definition parse_text (content : str) : list str * list str :=
  parse_lines (readlines (universal_newlines content)).

(** ** Slicing and indexing *)

Local Open Scope Z_scope.

(** A slice bound brought into [0, len]: a negative bound counts from the
    end; what still falls outside is clamped. *)
Definition adjust_index (i len : Z) : Z :=
  if i <? 0 then Z.max 0 (i + len) else Z.min i len.

(** [l[start:stop]] *)
Definition py_slice {A} (l : list A) (start stop : Z) : list A :=
  let len := Z.of_nat (length l) in
  let lo := adjust_index start len in
  let hi := adjust_index stop len in
  take (Z.to_nat (hi - lo)) (drop (Z.to_nat lo) l).

(** ** Exceptions *)

Inductive errno := ENOENT | EISDIR | ENOSPC.

Inductive exn :=
| ValueError (msg : str)
| FileNotFoundError (msg : str)   (* raised by validate_input *)
| IndexError                      (* list index out of range *)
| UnicodeDecodeError
| OSError (code : errno).         (* raised by open, write and os.remove *)

(** The classes caught by [except (IOError, OSError)]. *)
Definition is_OSError (e : exn) : bool :=
  match e with
  | FileNotFoundError _ | OSError _ => true
  | _ => false
  end.

Inductive result (A : Type) :=
| Ok (a : A)
| Raise (e : exn).
Arguments Ok {A} a.
Arguments Raise {A} e.

#[global] Instance result_ret : MRet result := fun _ a => Ok a.
#[global] Instance result_bind : MBind result := fun _ _ f r =>
  match r with
  | Ok a => f a
  | Raise e => Raise e
  end.

(** [l[i]] *)
Definition py_index {A} (l : list A) (i : Z) : result A :=
  let len := Z.of_nat (length l) in
  let j := if i <? 0 then i + len else i in
  if j <? 0 then Raise IndexError
  else match l !! Z.to_nat j with
       | Some x => Ok x
       | None => Raise IndexError
       end.

(** slice_sequence *)
Definition slice_sequence (sequence : str) (start end_ : option Z) : result str :=
  match start, end_ with
  | Some s, Some e =>
      if s >? e
      then Raise (ValueError (u "Start position cannot be greater than end position."))
      else Ok (py_slice sequence s e)
  | _, _ => Ok sequence
  end.

(** ** The world: files, console, and a failing disk *)

(** A path names a directory or a regular file.  A regular file is kept as
    the text its bytes decode to, [None] when they are not valid UTF-8.
    Written text is taken to be encodable, and a line end is written as
    "\n". *)
Inductive node :=
| Dir
| File (text : option str).

(** What [print] wrote: a line of text, or a line that ends with the
    interpreter's rendering of an exception. *)
Inductive notice :=
| Printed (text : str)
| PrintedExn (prefix : str) (e : exn).

(** [quota] is the number of [write] calls the disk still accepts; [None]
    is a disk that never fails. *)
Record world := World {
  fs : gmap str node;
  quota : option nat;
  stdout : list notice
}.

Definition M (A : Type) : Type := world -> result A * world.

#[global] Instance M_ret : MRet M := fun _ a w => (Ok a, w).
#[global] Instance M_bind : MBind M := fun _ _ f m w =>
  match m w with
  | (Ok a, w') => f a w'
  | (Raise e, w') => (Raise e, w')
  end.

Definition raise {A} (e : exn) : M A := fun w => (Raise e, w).

Definition lift {A} (r : result A) : M A := fun w => (r, w).

(** [try: body except <classes> as e: handler] *)
Definition try_except {A} (body : M A) (classes : exn -> bool) (handler : exn -> M A) : M A :=
  fun w =>
    match body w with
    | (Raise e, w') => if classes e then handler e w' else (Raise e, w')
    | r => r
    end.

Fixpoint for_each {A} (l : list A) (body : A -> M unit) : M unit :=
  match l with
  | [] => mret tt
  | x :: rest => body x ;; for_each rest body
  end.

Definition print (text : str) : M unit := fun w =>
  (Ok tt, {| fs := fs w; quota := quota w; stdout := stdout w ++ [Printed text] |}).

Definition print_exn (prefix : str) (e : exn) : M unit := fun w =>
  (Ok tt, {| fs := fs w; quota := quota w; stdout := stdout w ++ [PrintedExn prefix e] |}).

Definition set_fs (w : world) (m : gmap str node) : world :=
  {| fs := m; quota := quota w; stdout := stdout w |}.

(** [os.path.exists(path)] *)
Definition path_exists (path : str) : M bool := fun w =>
  (Ok (bool_decide (is_Some (fs w !! path))), w).

(** [os.remove(path)] *)
Definition os_remove (path : str) : M unit := fun w =>
  match fs w !! path with
  | Some (File _) => (Ok tt, set_fs w (delete path (fs w)))
  | Some Dir => (Raise (OSError EISDIR), w)
  | None => (Raise (OSError ENOENT), w)
  end.

(** [open(path, 'r', encoding="utf-8")] and reading it to the end. *)
Definition open_r (path : str) : M str := fun w =>
  match fs w !! path with
  | Some (File (Some text)) => (Ok text, w)
  | Some (File None) => (Raise UnicodeDecodeError, w)
  | Some Dir => (Raise (OSError EISDIR), w)
  | None => (Raise (OSError ENOENT), w)
  end.

(** [open(path, 'w')]: the file is created, or emptied when it exists.
    The empty path and a directory cannot be opened. *)
Definition open_w (path : str) : M str := fun w =>
  match path, fs w !! path with
  | [], _ => (Raise (OSError ENOENT), w)
  | _, Some Dir => (Raise (OSError EISDIR), w)
  | _, _ => (Ok path, set_fs w (<[path := File (Some [])]> (fs w)))
  end.

Definition file_text (w : world) (path : str) : str :=
  match fs w !! path with
  | Some (File (Some text)) => text
  | _ => []
  end.

(** [file.write(text)] on a file opened by [open_w]. *)
Definition write (file : str) (text : str) : M unit := fun w =>
  match quota w with
  | Some O => (Raise (OSError ENOSPC), w)
  | q =>
      (Ok tt, {| fs := <[file := File (Some (file_text w file ++ text))]> (fs w);
                 quota := pred <$> q;
                 stdout := stdout w |})
  end.

(** ** The functions of the module *)

(** parse_fasta_file *)
Definition parse_fasta_file (fasta_file : str) : M (list str * list str) :=
  content ← open_r fasta_file;
  mret (parse_text content).

(** validate_input.  [sequence_id] is an [option str] here, so the test
    that it is a string cannot fail. *)
Definition validate_input (fasta_file : str) (sequence_id : option str) : M unit :=
  found ← path_exists fasta_file;
  if negb found
  then raise (FileNotFoundError (u "File " ++ fasta_file ++ u " does not exist."))
  else mret tt.

(** The list comprehension of save_ids_to_file: the field at each column,
    the empty string for a column past the last field. *)
Definition project_or_empty (fields : list str) (columns : list Z) : result (list str) :=
  mapM (fun i => if i <? Z.of_nat (length fields) then py_index fields i else Ok [])
       columns.

(** The list comprehension of save_sequences_to_file: [id.split()[i]] for
    each column. *)
Definition project (fields : list str) (columns : list Z) : result (list str) :=
  mapM (py_index fields) columns.

(** The body of the [for index, id_str in enumerate(ids)] loop of
    save_ids_to_file. *)
Definition save_ids_record (file delimiter : str) (columns : option (list Z))
    (sequences : option (list str)) (entry : nat * str) : M unit :=
  let '(index, id_str) := entry in
  let columns_to_write := split id_str in
  columns_to_write ←
    match columns with
    | Some cols => lift (project_or_empty columns_to_write cols)
    | None => mret columns_to_write
    end;
  write file (join delimiter columns_to_write ++ [LF]);;
  match sequences with
  | Some ((_ :: _) as seqs) =>
      sequence ← lift (py_index seqs (Z.of_nat index));
      if truthy sequence then write file (sequence ++ [LF]) else mret tt
  | _ => mret tt
  end.

(** save_ids_to_file *)
Definition save_ids_to_file (ids : list str) (filename delimiter : str)
    (columns : option (list Z)) (sequences : option (list str)) : M unit :=
  if negb (bool_decide (ids ≠ []))
  then raise (ValueError (u "ids must be a non-empty list"))
  else if negb (truthy filename)
  then raise (ValueError (u "filename must be a non-empty string"))
  else if match columns with
          | Some cols => existsb (fun i => i <? 0) cols
          | None => false
          end
  then raise (ValueError (u "columns must be a list of non-negative integers or None"))
  else
    try_except
      (found ← path_exists filename;
       (if found : bool
        then os_remove filename;;
             print (u "Deleted existing file: " ++ filename)
        else mret tt);;
       file ← open_w filename;
       for_each (zip (seq 0 (length ids)) ids)
                (save_ids_record file delimiter columns sequences))
      is_OSError
      (fun e =>
         print_exn (u "Error opening/writing to the file " ++ filename ++ u ": ") e;;
         os_remove filename).

(** The body of the [for id, sequence in zip(ids, sequences)] loop of
    save_sequences_to_file. *)
Definition save_record (file delimiter : str) (columns : option (list Z))
    (write_sequence : bool) (record : str * str) : M unit :=
  let '(id, sequence) := record in
  if write_sequence then
    match columns with
    | Some ((_ :: _) as cols) =>
        columns_to_write ← lift (project (split id) cols);
        write file (join delimiter columns_to_write ++ [LF]);;
        write file (sequence ++ [LF])
    | _ => write file (id ++ [LF] ++ sequence ++ [LF])
    end
  else write file (id ++ [LF]).

(** save_sequences_to_file *)
Definition save_sequences_to_file (ids sequences : list str) (id_output_file : option str)
    (delimiter : str) (columns : option (list Z)) (write_sequence : bool) : M unit :=
  match id_output_file with
  | Some path =>
      file ← open_w path;
      for_each (zip ids sequences) (save_record file delimiter columns write_sequence)
  | None => mret tt
  end.

(** The [for id, sequence in zip(all_ids, all_sequences)] loop of
    get_sequence_by_id: the slice of the first record whose id is
    [sequence_id], the empty string when there is none. *)
Fixpoint find_target (records : list (str * str)) (sequence_id : str)
    (start end_ : option Z) : result str :=
  match records with
  | [] => Ok []
  | (id, sequence) :: rest =>
      if bool_decide (id = sequence_id)
      then slice_sequence sequence start end_
      else find_target rest sequence_id start end_
  end.

Fixpoint digits (d : Decimal.uint) : str :=
  (match d with
   | Decimal.Nil => []
   | Decimal.D0 d => 48 :: digits d
   | Decimal.D1 d => 49 :: digits d
   | Decimal.D2 d => 50 :: digits d
   | Decimal.D3 d => 51 :: digits d
   | Decimal.D4 d => 52 :: digits d
   | Decimal.D5 d => 53 :: digits d
   | Decimal.D6 d => 54 :: digits d
   | Decimal.D7 d => 55 :: digits d
   | Decimal.D8 d => 56 :: digits d
   | Decimal.D9 d => 57 :: digits d
   end)%N.

(** [str(n)] for a length. *)
Definition str_of_nat (n : nat) : str := digits (Nat.to_uint n).

(** The body of the [try] block of get_sequence_by_id. *)
Definition process (all_ids all_sequences : list str) (sequence_id : option str)
    (start end_ : option Z) (id_output_file : option str) (delimiter : str)
    (columns : option (list Z)) (write_sequence : bool) : M unit :=
  match sequence_id with
  | Some ((_ :: _) as sequence_id) =>
      target_sequence ← lift (find_target (zip all_ids all_sequences) sequence_id start end_);
      if truthy target_sequence then
        let sequence_length := length target_sequence in
        print (u "ID: " ++ sequence_id);;
        (if write_sequence
         then print (u "Sequence Length: " ++ str_of_nat sequence_length)
         else mret tt);;
        save_sequences_to_file [sequence_id] [target_sequence] id_output_file
                               delimiter columns write_sequence
      else print (u "ID " ++ sequence_id ++ u " not found in the FASTA file.")
  | _ =>
      save_sequences_to_file all_ids all_sequences id_output_file
                             delimiter columns write_sequence
  end.

(** [if columns is not None and len(columns) == 0: columns = None] *)
Definition normalize_columns (columns : option (list Z)) : option (list Z) :=
  match columns with
  | Some [] => None
  | _ => columns
  end.

(** The notice of the [except Exception as e] clause. *)
Definition report (e : exn) : M unit :=
  print_exn (u "An error occurred while processing the file: ") e.

(** get_sequence_by_id *)
Definition get_sequence_by_id (fasta_file : str) (sequence_id : option str)
    (start end_ : option Z) (id_output_file : option str) (delimiter : str)
    (columns : option (list Z)) (write_sequence : bool) : M unit :=
  validate_input fasta_file sequence_id;;
  let columns := normalize_columns columns in
  '(all_ids, all_sequences) ← parse_fasta_file fasta_file;
  try_except
    (process all_ids all_sequences sequence_id start end_ id_output_file
             delimiter columns write_sequence)
    (fun _ => true)
    report.

Definition TAB : str := [9%N].

(** ** Vocabulary of the statements *)

(** A text without line breaks. *)
Definition one_line (s : str) : Prop := Forall (fun c => c <> LF /\ c <> CR) s.

(** What holds of every identifier and of every sequence that the parser
    returns. *)
Definition good_id (id : str) : Prop :=
  truthy id = true /\ one_line id /\ rstrip id = id.

Definition good_sequence (s : str) : Prop :=
  truthy s = true /\ one_line s /\ lstrip s = s /\ rstrip s = s
  /\ startswith_gt s = false.

Record parse_inv (st : parse_state) : Prop := ParseInv {
  inv_ids : Forall good_id (ids st);
  inv_sequences : Forall good_sequence (sequences st);
  inv_length : length (ids st) = length (sequences st);
  inv_current_id : forall id, current_id st = Some id -> one_line id /\ rstrip id = id;
  inv_current_sequence :
    one_line (current_sequence st) /\ lstrip (current_sequence st) = current_sequence st
    /\ rstrip (current_sequence st) = current_sequence st
    /\ startswith_gt (current_sequence st) = false
}.

(** A FASTA text: for each record a header line, the marker followed by
    the header's text, and then the lines of its sequence. *)
Definition fasta_record_lines (r : str * list str) : list str :=
  (GT :: r.1) :: r.2.

Definition fasta_lines (recs : list (str * list str)) : list str :=
  concat (map fasta_record_lines recs).

Definition fasta_text (recs : list (str * list str)) : str :=
  concat (map (fun l => l ++ [LF]) (fasta_lines recs)).

(** The same lines ended by "\r\n". *)
Definition fasta_text_crlf (recs : list (str * list str)) : str :=
  concat (map (fun l => l ++ [CR; LF]) (fasta_lines recs)).

(** A file holds the records when its content is their text, with either
    line ending, or that text without the end of its last line. *)
Definition is_fasta_text (content : str) (recs : list (str * list str)) : Prop :=
  content = fasta_text recs
  \/ content ++ [LF] = fasta_text recs
  \/ content = fasta_text_crlf recs.

(** The lines hold no line break, and a line of a sequence is not itself
    a header. *)
Definition fasta_record_ok (r : str * list str) : Prop :=
  one_line r.1
  /\ Forall (fun l => one_line l /\ startswith_gt (strip l) = false) r.2.

(** The record read from a header and its sequence lines. *)
Definition record_of (r : str * list str) : str * str :=
  (rstrip r.1, concat (map strip r.2)).

Definition materialized (r : str * str) : bool := truthy r.1 && truthy r.2.

Definition records_of (recs : list (str * list str)) : list (str * str) :=
  List.filter materialized (map record_of recs).

(** The text made of the given lines, each ended by "\n". *)
Definition text (lines : list string) : str :=
  concat (map (fun l => u l ++ [LF]) lines).


(** A world with the given files, a disk that never fails and an empty
    console. *)
Definition world0 (files : gmap str node) : world :=
  {| fs := files; quota := None; stdout := [] |}.

(** The reading of C2 in which every bound outside the text, negative ones
    included, is clamped to the text. *)
Definition clamped_slice (sequence : str) (start end_ : Z) : str :=
  let len := Z.of_nat (length sequence) in
  let lo := Z.max 0 (Z.min start len) in
  let hi := Z.max 0 (Z.min end_ len) in
  take (Z.to_nat (hi - lo)) (drop (Z.to_nat lo) sequence).

(** What the writer puts in the file for records written whole, with no
    column selection. *)
Definition plain_text (records : list (str * str)) : str :=
  concat (map (fun r => r.1 ++ [LF] ++ r.2 ++ [LF]) records).

(** Records whose sequence is a single line. *)
Definition single_line_records (ids seqs : list str) : list (str * list str) :=
  map (fun r => (r.1, [r.2])) (zip ids seqs).

Definition add_notice (w : world) (n : notice) : world :=
  {| fs := fs w; quota := quota w; stdout := stdout w ++ [n] |}.

Definition id_lines (records : list (str * str)) : str :=
  concat (map (fun r => r.1 ++ [LF]) records).

(** A computation that removes no file. *)
Definition keeps {A} (m : M A) : Prop :=
  forall w r w' p, m w = (r, w') -> is_Some (fs w !! p) -> is_Some (fs w' !! p).

(** The text made of the given lines, each ended by "\n". *)
Definition lines_text (lines : list str) : str :=
  concat (map (fun l => l ++ [LF]) lines).

(** A computation that changes no file but, at most, the destination. *)
Definition frame {A} (dest : option str) (m : M A) : Prop :=
  forall w r w' q, m w = (r, w') -> dest <> Some q -> fs w' !! q = fs w !! q.

(** The field that a column selects: a negative column counts from the
    last field. *)
Definition select_field (fields : list str) (i : Z) : str :=
  default [] (fields !! Z.to_nat (if i <? 0 then i + Z.of_nat (length fields) else i)).

(** What the writer puts in the file for records written with their
    sequences and a selection of columns. *)
Definition selected_text (delimiter : str) (columns : list Z)
    (records : list (str * str)) : str :=
  concat (map (fun r => join delimiter (map (select_field (split r.1)) columns) ++ [LF]
                        ++ r.2 ++ [LF]) records).

(** The fields of the line that save_ids_to_file writes for an
    identifier: all of them, or those at the given columns, empty where the
    identifier has no such column. *)
Definition id_fields (columns : option (list Z)) (id_str : str) : list str :=
  match columns with
  | Some cols => map (fun i => default [] (split id_str !! Z.to_nat i)) cols
  | None => split id_str
  end.

(** What save_ids_to_file writes for the identifier at an index: its line
    and, when there is a non-empty sequence at that index, the sequence. *)
Definition ids_entry_text (delimiter : str) (columns : option (list Z))
    (sequences : option (list str)) (entry : nat * str) : str :=
  join delimiter (id_fields columns entry.2) ++ [LF]
  ++ match sequences with
     | Some seqs =>
         match seqs !! entry.1 with
         | Some s => if truthy s then s ++ [LF] else []
         | None => []
         end
     | None => []
     end.

Definition ids_text (delimiter : str) (columns : option (list Z))
    (sequences : option (list str)) (ids : list str) : str :=
  concat (map (ids_entry_text delimiter columns sequences) (zip (seq 0 (length ids)) ids)).

(** The notice that save_ids_to_file prints when the file was there. *)
Definition deleted_notice (w : world) (filename : str) : list notice :=
  if bool_decide (is_Some (fs w !! filename))
  then [Printed (u "Deleted existing file: " ++ filename)]
  else [].

(** How a computation that writes to an open file can end: the text is
    appended, or the disk refused a write and the file holds some part. *)
Definition write_outcome (file t text : str) (w : world) (out : result unit * world) : Prop :=
  stdout out.2 = stdout w
  /\ ((out.1 = Ok tt
       /\ fs out.2 = <[file := File (Some (t ++ text))]> (fs w)
       /\ (quota w = None -> quota out.2 = None))
      \/ (out.1 = Raise (OSError ENOSPC)
          /\ (exists t', fs out.2 = <[file := File (Some t')]> (fs w))
          /\ quota w <> None)).

(** A field: a non-empty text without whitespace. *)
Definition word (f : str) : Prop := f <> [] /\ Forall (fun c => isspace c = false) f.

(** A text of ASCII characters: whatever the encoding of the output file,
    writing it cannot fail for a character that the encoding lacks. *)
Definition ascii_only (s : str) : Prop := Forall (fun c => (c < 128)%N) s.

(** * Properties *)

Local Open Scope string_scope.
Local Open Scope list_scope.

(** ** Stripping *)

Lemma lstrip_nonspace c s : isspace c = false -> lstrip (c :: s) = c :: s.
Proof. intros H. simpl. now rewrite H. Qed.

Lemma lstrip_suffix s : exists p, s = p ++ lstrip s.
Proof.
  induction s as [|c s [p IH]]; [now exists []|].
  simpl. destruct (isspace c).
  - exists (c :: p). simpl. now f_equal.
  - now exists [].
Qed.

Lemma lstrip_head c r s : lstrip s = c :: r -> isspace c = false.
Proof.
  induction s as [|d s IH]; simpl; [discriminate|].
  destruct (isspace d) eqn:E; [exact IH|].
  intros [= <- _]. exact E.
Qed.

Lemma lstrip_idem s : lstrip (lstrip s) = lstrip s.
Proof.
  destruct (lstrip s) as [|c r] eqn:E; [reflexivity|].
  apply lstrip_nonspace. eapply lstrip_head, E.
Qed.

Lemma lstrip_snoc_nonspace s c :
  isspace c = false -> lstrip (s ++ [c]) = lstrip s ++ [c].
Proof.
  intros H. induction s as [|d s IH]; simpl.
  - now rewrite H.
  - destruct (isspace d); [exact IH | reflexivity].
Qed.

Lemma lstrip_snoc_space s c :
  isspace c = true ->
  lstrip (s ++ [c]) = match lstrip s with [] => [] | _ :: _ => lstrip s ++ [c] end.
Proof.
  intros H. induction s as [|d s IH]; simpl.
  - now rewrite H.
  - destruct (isspace d); [exact IH | reflexivity].
Qed.

Lemma lstrip_app_fixed a b : lstrip a = a -> lstrip b = b -> lstrip (a ++ b) = a ++ b.
Proof.
  intros Ha Hb. destruct a as [|c a]; [exact Hb|].
  simpl. rewrite (lstrip_head c a (c :: a) Ha). reflexivity.
Qed.

Lemma rstrip_snoc_space s c : isspace c = true -> rstrip (s ++ [c]) = rstrip s.
Proof.
  intros H. unfold rstrip. rewrite rev_app_distr. simpl. now rewrite H.
Qed.

Lemma rstrip_cons_nonspace c s : isspace c = false -> rstrip (c :: s) = c :: rstrip s.
Proof.
  intros H. unfold rstrip. simpl.
  rewrite lstrip_snoc_nonspace by exact H.
  rewrite rev_app_distr. reflexivity.
Qed.

Lemma rstrip_idem s : rstrip (rstrip s) = rstrip s.
Proof. unfold rstrip. now rewrite rev_involutive, lstrip_idem. Qed.

Lemma rstrip_prefix s : exists q, s = rstrip s ++ q.
Proof.
  unfold rstrip. destruct (lstrip_suffix (rev s)) as [p Hp].
  exists (rev p). rewrite <- rev_app_distr, <- Hp. now rewrite rev_involutive.
Qed.

Lemma rstrip_app_fixed a b : rstrip a = a -> rstrip b = b -> rstrip (a ++ b) = a ++ b.
Proof.
  unfold rstrip. intros Ha Hb.
  assert (Ha' : lstrip (rev a) = rev a) by (rewrite <- Ha at 2; now rewrite rev_involutive).
  assert (Hb' : lstrip (rev b) = rev b) by (rewrite <- Hb at 2; now rewrite rev_involutive).
  rewrite rev_app_distr, lstrip_app_fixed by assumption.
  now rewrite <- rev_app_distr, rev_involutive.
Qed.

Lemma strip_nil : strip [] = [].
Proof. reflexivity. Qed.

(** The result of [strip] starts with no whitespace. *)
Lemma lstrip_strip s : lstrip (strip s) = strip s.
Proof.
  unfold strip. destruct (lstrip s) as [|c r] eqn:E; [reflexivity|].
  pose proof (lstrip_head _ _ _ E) as Hc.
  rewrite rstrip_cons_nonspace by exact Hc. now apply lstrip_nonspace.
Qed.

(** ... and ends with none. *)
Lemma rstrip_strip s : rstrip (strip s) = strip s.
Proof. apply rstrip_idem. Qed.

Lemma strip_fixed s : lstrip s = s -> rstrip s = s -> strip s = s.
Proof. unfold strip. now intros -> ->. Qed.

Lemma strip_idem s : strip (strip s) = strip s.
Proof. apply strip_fixed; [apply lstrip_strip | apply rstrip_strip]. Qed.

Lemma strip_snoc_space s c : isspace c = true -> strip (s ++ [c]) = strip s.
Proof.
  intros H. unfold strip. rewrite lstrip_snoc_space by exact H.
  destruct (lstrip s) as [|d r]; [reflexivity|].
  now apply rstrip_snoc_space.
Qed.

Lemma strip_cons_nonspace c s : isspace c = false -> strip (c :: s) = c :: rstrip s.
Proof.
  intros H. unfold strip. rewrite lstrip_nonspace by exact H.
  now apply rstrip_cons_nonspace.
Qed.

(** Stripping only removes characters. *)
Lemma Forall_lstrip (P : N -> Prop) s : Forall P s -> Forall P (lstrip s).
Proof.
  destruct (lstrip_suffix s) as [p Hp]. intros H. rewrite Hp in H.
  now apply Forall_app in H as [_ H].
Qed.

Lemma Forall_rstrip (P : N -> Prop) s : Forall P s -> Forall P (rstrip s).
Proof.
  destruct (rstrip_prefix s) as [q Hq]. intros H. rewrite Hq in H.
  now apply Forall_app in H as [H _].
Qed.

Lemma Forall_strip (P : N -> Prop) s : Forall P s -> Forall P (strip s).
Proof. intros H. now apply Forall_rstrip, Forall_lstrip. Qed.

(** ** Lines *)

Lemma one_line_app a b : one_line a -> one_line b -> one_line (a ++ b).
Proof. intros Ha Hb. apply Forall_app. now split. Qed.

Lemma one_line_no_LF s : one_line s -> Forall (fun c => c <> LF) s.
Proof. intros H. eapply Forall_impl; [exact H|]. simpl. tauto. Qed.

Lemma one_line_no_CR s : one_line s -> Forall (fun c => c <> CR) s.
Proof. intros H. eapply Forall_impl; [exact H|]. simpl. tauto. Qed.

Lemma universal_newlines_no_CR s :
  Forall (fun c => c <> CR) s -> universal_newlines s = s.
Proof.
  induction 1 as [|c s Hc _ IH]; [reflexivity|].
  simpl. destruct (N.eqb_spec c CR) as [->|_]; [contradiction|]. now rewrite IH.
Qed.

Lemma universal_newlines_clean s :
  Forall (fun c => c <> CR) (universal_newlines s).
Proof.
  enough (H : Forall (fun c => c <> CR) (universal_newlines s)
              /\ forall c, Forall (fun c => c <> CR) (universal_newlines (c :: s)))
    by apply H.
  induction s as [|d s [IH1 IH2]].
  - split; [constructor|]. intros c. simpl.
    destruct (N.eqb_spec c CR); repeat constructor; [discriminate | assumption].
  - split; [apply IH2|]. intros c.
    change (universal_newlines (c :: d :: s))
      with (if N.eqb c CR
            then if N.eqb d LF then LF :: universal_newlines s
                 else LF :: universal_newlines (d :: s)
            else c :: universal_newlines (d :: s)).
    destruct (N.eqb_spec c CR).
    + destruct (N.eqb d LF); constructor; try discriminate; [exact IH1 | apply IH2].
    + constructor; [assumption | apply IH2].
Qed.

Lemma readlines_line l rest :
  Forall (fun c => c <> LF) l ->
  readlines (l ++ LF :: rest) = (l ++ [LF]) :: readlines rest.
Proof.
  induction 1 as [|c l Hc _ IH]; [reflexivity|].
  simpl. destruct (N.eqb_spec c LF) as [->|_]; [contradiction|]. now rewrite IH.
Qed.

Lemma readlines_lines (ls : list str) :
  Forall (fun l => Forall (fun c => c <> LF) l) ls ->
  readlines (concat (map (fun l => l ++ [LF]) ls)) = map (fun l => l ++ [LF]) ls.
Proof.
  induction 1 as [|l ls Hl _ IH]; [reflexivity|].
  simpl. rewrite <- app_assoc. simpl. rewrite readlines_line by exact Hl. now rewrite IH.
Qed.

(** Every line that the loop sees is a text without "\n", possibly
    followed by one "\n"; its characters are characters of the input. *)
Lemma readlines_shape (P : N -> Prop) s :
  Forall P s ->
  Forall (fun l => Forall P l /\
                   exists body, Forall (fun c => c <> LF) body /\
                                (l = body ++ [LF] \/ l = body))
         (readlines s).
Proof.
  induction 1 as [|c s Hc Hs IH]; [constructor|].
  simpl. destruct (N.eqb_spec c LF) as [->|Hne].
  - constructor; [|exact IH]. split; [now repeat constructor|].
    exists []. split; [constructor | now left].
  - destruct (readlines s) as [|l ls].
    + repeat constructor; [assumption|]. exists [c]. split; [now repeat constructor | now right].
    + inversion IH as [|? ? [Hl [body [Hb Hor]]] Hls]; subst.
      constructor; [|exact Hls]. split; [now constructor|].
      exists (c :: body). split; [now constructor|].
      destruct Hor as [->| ->]; [now left | now right].
Qed.

Lemma isspace_LF : isspace LF = true.
Proof. reflexivity. Qed.

Lemma isspace_GT : isspace GT = false.
Proof. reflexivity. Qed.

(** After stripping, no line of the file holds a line break. *)
Lemma readlines_stripped content :
  Forall (fun l => one_line (strip l)) (readlines (universal_newlines content)).
Proof.
  eapply Forall_impl; [apply (readlines_shape _ _ (universal_newlines_clean content))|].
  intros l [Hcr [body [Hlf Hor]]]. simpl in Hcr.
  assert (Hb : one_line body).
  { assert (Hcr' : Forall (fun c => c <> CR) body).
    { destruct Hor as [->| ->]; [now apply Forall_app in Hcr as [Hcr _] | exact Hcr]. }
    unfold one_line. rewrite Forall_forall in *. intros c Hin. split; auto. }
  destruct Hor as [->| ->].
  - rewrite strip_snoc_space by apply isspace_LF. now apply Forall_strip.
  - now apply Forall_strip.
Qed.

(** ** The parser's loop invariant *)

Lemma parse_inv_init : parse_inv parse_init.
Proof. split; simpl; try constructor; try discriminate; repeat split; constructor. Qed.

Lemma flush_good st :
  parse_inv st ->
  Forall good_id (flush st).1 /\ Forall good_sequence (flush st).2
  /\ length (flush st).1 = length (flush st).2.
Proof.
  intros [Hi Hs Hl Hc Hq]. unfold flush.
  destruct (current_id st) as [id|] eqn:E; [|now simpl].
  destruct (truthy id) eqn:Tid; simpl; [|now simpl].
  destruct (truthy (current_sequence st)) eqn:Tcs; simpl; [|easy].
  destruct (Hc id eq_refl) as [Hc1 Hc2].
  repeat split.
  - apply Forall_app. split; [exact Hi|]. repeat constructor; assumption.
  - apply Forall_app. split; [exact Hs|]. constructor; [|constructor].
    unfold good_sequence. tauto.
  - rewrite !length_app. simpl. lia.
Qed.

Lemma startswith_gt_cons s : startswith_gt s = true -> s = GT :: drop 1 s.
Proof.
  destruct s as [|c s]; simpl; [discriminate|].
  intros H. apply N.eqb_eq in H. subst c. now rewrite drop_0.
Qed.

Lemma startswith_gt_app a b :
  startswith_gt a = false -> startswith_gt b = false -> startswith_gt (a ++ b) = false.
Proof. destruct a; simpl; auto. Qed.

Lemma parse_line_inv st line :
  parse_inv st -> one_line (strip line) -> parse_inv (parse_line st line).
Proof.
  intros Hst Hline. unfold parse_line.
  destruct (startswith_gt (strip line)) eqn:Hgt.
  - destruct (flush_good st Hst) as (Hi & Hs & Hl).
    destruct (flush st) as [i s]. simpl in *.
    split; simpl; try assumption.
    + intros id [= <-].
      pose proof (startswith_gt_cons _ Hgt) as Heq.
      pose proof (rstrip_strip line) as Hr. rewrite Heq in Hline, Hr.
      rewrite rstrip_cons_nonspace in Hr by apply isspace_GT.
      split; [now inversion Hline | now injection Hr].
    + repeat split; constructor.
  - pose proof Hst as [Hi Hs Hl Hc (Hq1 & Hq2 & Hq3 & Hq4)].
    split; simpl; try assumption.
    repeat split.
    + now apply one_line_app.
    + apply lstrip_app_fixed; [exact Hq2 | apply lstrip_strip].
    + apply rstrip_app_fixed; [exact Hq3 | apply rstrip_strip].
    + now apply startswith_gt_app.
Qed.

Lemma fold_parse_line_inv lines st :
  parse_inv st -> Forall (fun l => one_line (strip l)) lines ->
  parse_inv (fold_left parse_line lines st).
Proof.
  intros Hst Hl. revert st Hst.
  induction Hl as [|l lines Hl _ IH]; intros st Hst; [exact Hst|].
  simpl. apply IH. now apply parse_line_inv.
Qed.

Lemma parse_text_good content :
  Forall good_id (parse_text content).1
  /\ Forall good_sequence (parse_text content).2
  /\ length (parse_text content).1 = length (parse_text content).2.
Proof.
  apply flush_good, fold_parse_line_inv; [apply parse_inv_init | apply readlines_stripped].
Qed.

(** ** Parsing a FASTA text *)

Lemma parse_line_header st h :
  parse_line st ((GT :: h) ++ [LF])
  = {| ids := (flush st).1; sequences := (flush st).2;
       current_id := Some (rstrip h); current_sequence := [] |}.
Proof.
  unfold parse_line.
  rewrite strip_snoc_space by apply isspace_LF.
  rewrite strip_cons_nonspace by apply isspace_GT.
  simpl. rewrite drop_0. now destruct (flush st).
Qed.

Lemma fold_parse_line_sequence ls st :
  Forall (fun l => startswith_gt (strip l) = false) ls ->
  fold_left parse_line (map (fun l => l ++ [LF]) ls) st
  = {| ids := ids st; sequences := sequences st; current_id := current_id st;
       current_sequence := current_sequence st ++ concat (map strip ls) |}.
Proof.
  intros H. revert st. induction H as [|l ls Hl _ IH]; intros st; simpl.
  - rewrite app_nil_r. now destruct st.
  - rewrite IH. unfold parse_line.
    rewrite strip_snoc_space by apply isspace_LF. rewrite Hl. simpl.
    now rewrite <- app_assoc.
Qed.

Lemma records_of_cons r recs :
  records_of (r :: recs)
  = if materialized (record_of r) then record_of r :: records_of recs
    else records_of recs.
Proof. unfold records_of. simpl. now destruct (materialized (record_of r)). Qed.

Lemma flush_current i s id cs :
  flush {| ids := i; sequences := s; current_id := Some id; current_sequence := cs |}
  = if truthy id && truthy cs then (i ++ [id], s ++ [cs]) else (i, s).
Proof. reflexivity. Qed.

Lemma parse_fasta_lines recs st :
  Forall fasta_record_ok recs ->
  flush (fold_left parse_line (map (fun l => l ++ [LF]) (fasta_lines recs)) st)
  = ((flush st).1 ++ map fst (records_of recs),
     (flush st).2 ++ map snd (records_of recs)).
Proof.
  intros H. revert st. induction H as [|[h ls] recs [_ Hls] _ IH]; intros st.
  - simpl. rewrite !app_nil_r. now destruct (flush st).
  - change (fasta_lines ((h, ls) :: recs)) with ((GT :: h) :: ls ++ fasta_lines recs).
    rewrite map_cons, map_app. cbn [fold_left].
    rewrite fold_left_app, parse_line_header.
    rewrite (fold_parse_line_sequence ls)
      by (eapply Forall_impl; [exact Hls | simpl; tauto]).
    simpl. rewrite IH, records_of_cons, flush_current.
    unfold materialized, record_of. simpl.
    destruct (truthy (rstrip h) && truthy (concat (map strip ls))); simpl.
    + now rewrite <- !app_assoc.
    + reflexivity.
Qed.

Lemma fasta_lines_one_line recs :
  Forall fasta_record_ok recs -> Forall one_line (fasta_lines recs).
Proof.
  induction 1 as [|[h ls] recs [Hh Hls] _ IH]; [constructor|].
  unfold fasta_lines. simpl. constructor.
  - constructor; [split; discriminate | exact Hh].
  - apply Forall_app. split; [|exact IH].
    eapply Forall_impl; [exact Hls | simpl; tauto].
Qed.

Lemma lines_text_no_CR ls :
  Forall one_line ls ->
  Forall (fun c => c <> CR) (concat (map (fun l => l ++ [LF]) ls)).
Proof.
  induction 1 as [|l ls Hl _ IH]; [constructor|].
  simpl. rewrite <- app_assoc. apply Forall_app. split; [now apply one_line_no_CR|].
  constructor; [discriminate | exact IH].
Qed.

(** The lines of a text made of whole lines are those lines. *)
Lemma readlines_text ls :
  Forall one_line ls ->
  readlines (universal_newlines (concat (map (fun l => l ++ [LF]) ls)))
  = map (fun l => l ++ [LF]) ls.
Proof.
  intros H. rewrite universal_newlines_no_CR by now apply lines_text_no_CR.
  apply readlines_lines. eapply Forall_impl; [exact H|]. apply one_line_no_LF.
Qed.

Lemma parse_text_fasta recs :
  Forall fasta_record_ok recs ->
  parse_text (fasta_text recs)
  = (map fst (records_of recs), map snd (records_of recs)).
Proof.
  intros H. unfold parse_text, fasta_text, parse_lines.
  rewrite readlines_text by now apply fasta_lines_one_line.
  now rewrite parse_fasta_lines.
Qed.

Lemma parse_line_LF st l : parse_line st (l ++ [LF]) = parse_line st l.
Proof. unfold parse_line. now rewrite strip_snoc_space by apply isspace_LF. Qed.

Lemma fold_parse_line_LF ls st :
  fold_left parse_line (map (fun l => l ++ [LF]) ls) st = fold_left parse_line ls st.
Proof.
  revert st. induction ls as [|l ls IH]; intros st; [reflexivity|].
  simpl. now rewrite IH, parse_line_LF.
Qed.

Lemma flush_parse_line_nil st : flush (parse_line st []) = flush st.
Proof. unfold parse_line, flush. simpl. now rewrite app_nil_r. Qed.

Lemma readlines_one l :
  l <> [] -> Forall (fun c => c <> LF) l -> readlines l = [l].
Proof.
  intros Hne H. induction H as [|c l Hc Hl IH]; [contradiction|].
  simpl. destruct (N.eqb_spec c LF) as [->|_]; [contradiction|].
  destruct l as [|d l]; [reflexivity|]. now rewrite IH.
Qed.

Lemma readlines_lines_open (ls : list str) (l : str) :
  Forall (fun l => Forall (fun c => c <> LF) l) ls ->
  l <> [] -> Forall (fun c => c <> LF) l ->
  readlines (concat (map (fun l => l ++ [LF]) ls) ++ l)
  = map (fun l => l ++ [LF]) ls ++ [l].
Proof.
  intros Hls Hne Hl. induction Hls as [|k ls Hk _ IH]; simpl.
  - now apply readlines_one.
  - rewrite <- !app_assoc. simpl. rewrite readlines_line by exact Hk. now rewrite IH.
Qed.

(** A text and the same text without the end of its last line parse alike. *)
Lemma parse_text_open ls content :
  Forall one_line ls ->
  content ++ [LF] = concat (map (fun l => l ++ [LF]) ls) ->
  parse_text content = parse_lines (map (fun l => l ++ [LF]) ls).
Proof.
  intros Hls Heq.
  destruct (decide (ls = [])) as [->|Hne]; [now destruct content|].
  destruct (exists_last Hne) as (ls' & l & ->).
  rewrite map_app, concat_app in Heq. simpl in Heq.
  rewrite app_nil_r, app_assoc in Heq. apply app_inj_tail in Heq as [-> _].
  apply Forall_app in Hls as [Hls' Hl]. inversion Hl as [|? ? Hl1 _]; subst.
  assert (Hcr : Forall (fun c => c <> CR) (concat (map (fun l => l ++ [LF]) ls') ++ l)).
  { apply Forall_app. split; [now apply lines_text_no_CR | now apply one_line_no_CR]. }
  assert (Hlf : Forall (fun l => Forall (fun c => c <> LF) l) ls').
  { eapply Forall_impl; [exact Hls'|]. apply one_line_no_LF. }
  unfold parse_text, parse_lines. rewrite universal_newlines_no_CR by exact Hcr.
  rewrite fold_parse_line_LF.
  destruct l as [|c l].
  - rewrite app_nil_r, readlines_lines by exact Hlf.
    rewrite fold_parse_line_LF, fold_left_app. cbn [fold_left].
    now rewrite flush_parse_line_nil.
  - rewrite readlines_lines_open by (try discriminate; try assumption; now apply one_line_no_LF).
    now rewrite !fold_left_app, fold_parse_line_LF.
Qed.

Lemma universal_newlines_crlf_line l rest :
  Forall (fun c => c <> CR) l ->
  universal_newlines (l ++ CR :: LF :: rest) = l ++ LF :: universal_newlines rest.
Proof.
  induction 1 as [|c l Hc _ IH]; [reflexivity|].
  simpl. destruct (N.eqb_spec c CR) as [->|_]; [contradiction|].
  simpl in IH. now rewrite IH.
Qed.

Lemma universal_newlines_crlf ls :
  Forall one_line ls ->
  universal_newlines (concat (map (fun l => l ++ [CR; LF]) ls))
  = concat (map (fun l => l ++ [LF]) ls).
Proof.
  induction 1 as [|l ls Hl _ IH]; [reflexivity|].
  simpl. rewrite <- !app_assoc. simpl.
  rewrite universal_newlines_crlf_line by now apply one_line_no_CR.
  now rewrite IH.
Qed.

Lemma parse_text_is_fasta content recs :
  Forall fasta_record_ok recs -> is_fasta_text content recs ->
  parse_text content = (map fst (records_of recs), map snd (records_of recs)).
Proof.
  intros Hok [-> | [Heq | ->]].
  - now apply parse_text_fasta.
  - rewrite (parse_text_open (fasta_lines recs)); [|now apply fasta_lines_one_line|exact Heq].
    unfold parse_lines. now rewrite parse_fasta_lines.
  - rewrite <- (parse_text_fasta recs Hok).
    unfold parse_text, fasta_text_crlf, fasta_text.
    rewrite universal_newlines_crlf by now apply fasta_lines_one_line.
    now rewrite universal_newlines_no_CR by now apply lines_text_no_CR, fasta_lines_one_line.
Qed.

Lemma parse_fasta_file_text path content w :
  fs w !! path = Some (File (Some content)) ->
  parse_fasta_file path w = (Ok (parse_text content), w).
Proof.
  intros H. unfold parse_fasta_file, mbind, M_bind, open_r. now rewrite H.
Qed.

(** C1 (as amended).  For a file that holds a FASTA text, with "\n" or
    "\r\n" line ends, the last of which may be missing, parse_fasta_file
    returns the records in file order: each identifier is the text after the
    marker with its trailing whitespace stripped (whitespace between the
    marker and the text is kept), each sequence is the concatenation of the
    stripped lines up to the next header or the end of the file, and the
    records whose identifier or sequence is empty are left out. *)
Theorem parse_fasta_file_records (fasta_file content : str)
    (recs : list (str * list str)) (w : world) :
  Forall fasta_record_ok recs ->
  is_fasta_text content recs ->
  fs w !! fasta_file = Some (File (Some content)) ->
  parse_fasta_file fasta_file w
  = (Ok (map fst (records_of recs), map snd (records_of recs)), w).
Proof.
  intros Hok Htext Hfile.
  rewrite (parse_fasta_file_text _ _ _ Hfile).
  now rewrite (parse_text_is_fasta _ _ Hok Htext).
Qed.

(** When the text of a header does not start with whitespace, the
    identifier is that text stripped on both sides. *)
Lemma record_of_no_leading_space (r : str * list str) :
  lstrip r.1 = r.1 -> record_of r = (strip r.1, concat (map strip r.2)).
Proof. intros H. unfold record_of, strip. now rewrite H. Qed.

(** The example of C1: ">a\nAC\nGT\n>b\nTT\n" gives ("a","ACGT"), ("b","TT"). *)
Lemma parse_fasta_file_records_witness :
  let content := text [">a"; "AC"; "GT"; ">b"; "TT"] in
  let w := world0 {[ u "in.fa" := File (Some content) ]} in
  parse_fasta_file (u "in.fa") w = (Ok ([u "a"; u "b"], [u "ACGT"; u "TT"]), w).
Proof.
  intros content w.
  apply (parse_fasta_file_records (u "in.fa") content
           [(u "a", [u "AC"; u "GT"]); (u "b", [u "TT"])] w).
  - repeat constructor; vm_compute; intros; discriminate.
  - left. vm_compute. reflexivity.
  - vm_compute. reflexivity.
Defined.

(** C1 as stated fails: the header "> a" gives the identifier " a", which
    is not the text after the marker with surrounding whitespace stripped. *)
Lemma parse_fasta_file_keeps_leading_space :
  let w := world0 {[ u "in.fa" := File (Some (text ["> a"; "AC"])) ]} in
  Forall fasta_record_ok [(u " a", [u "AC"])]
  /\ fasta_text [(u " a", [u "AC"])] = text ["> a"; "AC"]
  /\ parse_fasta_file (u "in.fa") w = (Ok ([u " a"], [u "AC"]), w)
  /\ parse_fasta_file (u "in.fa") w
     <> (Ok ([strip (u " a")], [concat (map strip [u "AC"])]), w).
Proof.
  split; [|vm_compute; repeat split; discriminate].
  repeat constructor; vm_compute; intros; discriminate.
Qed.

Lemma records_of_empty_sequence recs1 h recs2 :
  records_of (recs1 ++ (h, []) :: recs2) = records_of (recs1 ++ recs2).
Proof.
  unfold records_of. rewrite !map_app, !List.filter_app. f_equal.
  simpl. unfold materialized. simpl. now rewrite andb_false_r.
Qed.

Lemma good_id_nonempty ids : Forall good_id ids -> Forall (fun id => id <> []) ids.
Proof.
  intros H. eapply Forall_impl; [exact H|]. intros id [Ht _] ->. discriminate.
Qed.

Lemma good_sequence_nonempty seqs :
  Forall good_sequence seqs -> Forall (fun s => s <> []) seqs.
Proof.
  intros H. eapply Forall_impl; [exact H|]. intros s [Ht _] ->. discriminate.
Qed.

(** C8.  Whatever text the file holds, parse_fasta_file returns as many
    identifiers as sequences and none of them is empty; for a file that
    holds a FASTA text in which a header is followed at once by another
    header, it returns the records of the text without that header; for the
    file ">a\n>b\nAA\n" it returns exactly ("b","AA"). *)
Theorem parse_fasta_file_nonempty :
  (forall (fasta_file content : str) (w : world),
      fs w !! fasta_file = Some (File (Some content)) ->
      exists all_ids all_sequences,
        parse_fasta_file fasta_file w = (Ok (all_ids, all_sequences), w)
        /\ length all_ids = length all_sequences
        /\ Forall (fun id => id <> []) all_ids
        /\ Forall (fun s => s <> []) all_sequences)
  /\ (forall (fasta_file : str) recs1 h recs2 (w : world),
         Forall fasta_record_ok (recs1 ++ (h, []) :: recs2) ->
         fs w !! fasta_file
         = Some (File (Some (fasta_text (recs1 ++ (h, []) :: recs2)))) ->
         parse_fasta_file fasta_file w
         = (Ok (map fst (records_of (recs1 ++ recs2)),
                map snd (records_of (recs1 ++ recs2))), w))
  /\ (forall (fasta_file : str) (w : world),
         fs w !! fasta_file = Some (File (Some (text [">a"; ">b"; "AA"]))) ->
         parse_fasta_file fasta_file w = (Ok ([u "b"], [u "AA"]), w)).
Proof.
  split; [|split].
  - intros fasta_file content w Hfile.
    destruct (parse_text_good content) as (Hi & Hs & Hl).
    exists (parse_text content).1, (parse_text content).2.
    rewrite (parse_fasta_file_text _ _ _ Hfile).
    destruct (parse_text content) as [i s]. simpl in *.
    repeat split; [exact Hl | now apply good_id_nonempty | now apply good_sequence_nonempty].
  - intros fasta_file recs1 h recs2 w Hok Hfile.
    rewrite (parse_fasta_file_text _ _ _ Hfile).
    rewrite parse_text_fasta by exact Hok.
    now rewrite records_of_empty_sequence.
  - intros fasta_file w Hfile.
    rewrite (parse_fasta_file_text _ _ _ Hfile). reflexivity.
Qed.

Lemma parse_fasta_file_nonempty_witness :
  let w := world0 {[ u "in.fa" := File (Some (text [">a"; ">b"; "AA"])) ]} in
  (exists all_ids all_sequences,
      parse_fasta_file (u "in.fa") w = (Ok (all_ids, all_sequences), w)
      /\ length all_ids = length all_sequences
      /\ Forall (fun id => id <> []) all_ids
      /\ Forall (fun s => s <> []) all_sequences)
  /\ parse_fasta_file (u "in.fa") w
     = (Ok (map fst (records_of ([] ++ [(u "b", [u "AA"])])),
            map snd (records_of ([] ++ [(u "b", [u "AA"])]))), w)
  /\ parse_fasta_file (u "in.fa") w = (Ok ([u "b"], [u "AA"]), w).
Proof.
  intros w.
  destruct parse_fasta_file_nonempty as (Hinv & Hdrop & Hex).
  split; [|split].
  - apply (Hinv (u "in.fa") (text [">a"; ">b"; "AA"])). vm_compute. reflexivity.
  - apply (Hdrop (u "in.fa") [] (u "a") [(u "b", [u "AA"])] w).
    + repeat constructor; vm_compute; intros; discriminate.
    + vm_compute. reflexivity.
  - apply (Hex (u "in.fa") w). vm_compute. reflexivity.
Defined.

(** ** Slicing *)

Lemma adjust_index_range i len : 0 <= len -> 0 <= adjust_index i len <= len.
Proof. unfold adjust_index. destruct (Z.ltb_spec i 0); lia. Qed.

(** The slice is the stretch of the list between the two adjusted bounds. *)
Lemma py_slice_split {A} (l : list A) (start stop : Z) :
  let len := Z.of_nat (length l) in
  exists pre post,
    l = pre ++ py_slice l start stop ++ post
    /\ Z.of_nat (length pre) = adjust_index start len
    /\ Z.of_nat (length (py_slice l start stop))
       = Z.max 0 (adjust_index stop len - adjust_index start len).
Proof.
  intros len. unfold py_slice. fold len.
  pose proof (adjust_index_range start len ltac:(lia)) as Hlo.
  pose proof (adjust_index_range stop len ltac:(lia)) as Hhi.
  set (lo := adjust_index start len) in *. set (hi := adjust_index stop len) in *.
  exists (take (Z.to_nat lo) l), (drop (Z.to_nat (hi - lo)) (drop (Z.to_nat lo) l)).
  repeat split.
  - now rewrite !take_drop.
  - rewrite length_take. lia.
  - rewrite length_take, length_drop. lia.
Qed.

(** C2 (as amended).  With either bound absent slice_sequence returns the
    sequence unchanged.  With both, it raises when start > end, and
    otherwise returns the characters from the start bound (inclusive) to the
    end bound (exclusive), where a negative bound counts from the end of the
    sequence and a bound that then still falls outside is clamped. *)
Theorem slice_sequence_spec (sequence : str) :
  (forall start end_, start = None \/ end_ = None ->
      slice_sequence sequence start end_ = Ok sequence)
  /\ (forall s e, s > e ->
         slice_sequence sequence (Some s) (Some e)
         = Raise (ValueError (u "Start position cannot be greater than end position.")))
  /\ (forall s e, s <= e ->
         let len := Z.of_nat (length sequence) in
         exists pre r post,
           slice_sequence sequence (Some s) (Some e) = Ok r
           /\ sequence = pre ++ r ++ post
           /\ Z.of_nat (length pre) = adjust_index s len
           /\ Z.of_nat (length r) = Z.max 0 (adjust_index e len - adjust_index s len)).
Proof.
  repeat split.
  - intros start end_ [-> | ->]; [reflexivity | now destruct start].
  - intros s e H. unfold slice_sequence.
    destruct (Z.gtb_spec s e); [reflexivity | lia].
  - intros s e H len.
    destruct (py_slice_split sequence s e) as (pre & post & H1 & H2 & H3).
    exists pre, (py_slice sequence s e), post.
    repeat split; try assumption.
    unfold slice_sequence. destruct (Z.gtb_spec s e); [lia | reflexivity].
Qed.

Lemma slice_sequence_spec_witness :
  slice_sequence (u "ABCDE") (Some 1) None = Ok (u "ABCDE")
  /\ slice_sequence (u "ABCDE") (Some 5) (Some 2)
     = Raise (ValueError (u "Start position cannot be greater than end position."))
  /\ exists pre r post,
       slice_sequence (u "ABCDE") (Some (-3)) (Some 9) = Ok r
       /\ u "ABCDE" = pre ++ r ++ post
       /\ Z.of_nat (length pre) = 2
       /\ Z.of_nat (length r) = 3.
Proof.
  destruct (slice_sequence_spec (u "ABCDE")) as (Hnone & Hraise & Hslice).
  split; [|split].
  - apply Hnone. now right.
  - apply Hraise. lia.
  - apply (Hslice (-3) 9). lia.
Defined.

(** C2 as stated fails: in "ABCDE" the bounds -3 and -1 select "CD", they are
    not clamped to the start of the text. *)
Lemma slice_sequence_negative_bounds :
  slice_sequence (u "ABCDE") (Some (-3)) (Some (-1)) = Ok (u "CD")
  /\ clamped_slice (u "ABCDE") (-3) (-1) = []
  /\ slice_sequence (u "ABCDE") (Some (-3)) (Some (-1))
     <> Ok (clamped_slice (u "ABCDE") (-3) (-1)).
Proof. vm_compute. repeat split. discriminate. Qed.

(** ** Writing *)

Lemma write_unlimited file text w :
  quota w = None ->
  write file text w
  = (Ok tt, set_fs w (<[file := File (Some (file_text w file ++ text))]> (fs w))).
Proof. intros H. unfold write, set_fs. now rewrite H. Qed.

Lemma file_text_lookup w file t :
  fs w !! file = Some (File (Some t)) -> file_text w file = t.
Proof. intros H. unfold file_text. now rewrite H. Qed.

Lemma set_fs_id w : set_fs w (fs w) = w.
Proof. now destruct w. Qed.

Lemma for_each_save_record_plain file delimiter columns records w t :
  columns = None \/ columns = Some [] ->
  quota w = None ->
  fs w !! file = Some (File (Some t)) ->
  for_each records (save_record file delimiter columns true) w
  = (Ok tt, set_fs w (<[file := File (Some (t ++ plain_text records))]> (fs w))).
Proof.
  intros Hcols. revert w t.
  induction records as [|[id sequence] records IH]; intros w t Hq Hf.
  - simpl. unfold plain_text. simpl. rewrite app_nil_r.
    rewrite insert_id by exact Hf. now rewrite set_fs_id.
  - cbn [for_each]. unfold mbind, M_bind.
    assert (Hw : save_record file delimiter columns true (id, sequence) w
                 = write file (id ++ [LF] ++ sequence ++ [LF]) w)
      by (destruct Hcols as [-> | ->]; reflexivity).
    rewrite Hw, (write_unlimited _ _ _ Hq), (file_text_lookup _ _ _ Hf).
    rewrite (IH _ (t ++ id ++ [LF] ++ sequence ++ [LF])).
    + unfold set_fs. simpl. rewrite insert_insert_eq.
      unfold plain_text. simpl. now rewrite <- !app_assoc.
    + exact Hq.
    + simpl. apply lookup_insert_eq.
Qed.

Lemma open_w_ok path w :
  path <> [] -> fs w !! path <> Some Dir ->
  open_w path w = (Ok path, set_fs w (<[path := File (Some [])]> (fs w))).
Proof.
  intros Hp Hd. unfold open_w. destruct path as [|c path]; [contradiction|].
  destruct (fs w !! (c :: path)) as [[|t]|]; [contradiction | reflexivity | reflexivity].
Qed.

(** With a file name, no column selection and a disk that does not fail,
    save_sequences_to_file leaves exactly the id and sequence lines in the
    file, whatever the file held before. *)
Lemma save_sequences_to_file_plain ids sequences path delimiter columns w :
  columns = None \/ columns = Some [] ->
  quota w = None -> path <> [] -> fs w !! path <> Some Dir ->
  save_sequences_to_file ids sequences (Some path) delimiter columns true w
  = (Ok tt, set_fs w (<[path := File (Some (plain_text (zip ids sequences)))]> (fs w))).
Proof.
  intros Hcols Hq Hp Hd. unfold save_sequences_to_file, mbind, M_bind.
  rewrite (open_w_ok _ _ Hp Hd).
  rewrite (for_each_save_record_plain _ _ _ _ _ []); try assumption.
  - unfold set_fs. simpl. now rewrite insert_insert_eq.
  - simpl. apply lookup_insert_eq.
Qed.

(** ** Writing and reading back *)

Lemma plain_text_marked ids seqs :
  plain_text (zip (map (cons GT) ids) seqs) = fasta_text (single_line_records ids seqs).
Proof.
  revert seqs. induction ids as [|id ids IH]; intros [|s seqs]; try reflexivity.
  unfold plain_text, fasta_text, single_line_records in *. simpl.
  rewrite IH. unfold fasta_lines. f_equal.
  rewrite <- !app_assoc. simpl. now rewrite <- !app_assoc.
Qed.

Lemma single_line_records_read ids seqs :
  Forall good_id ids -> Forall good_sequence seqs -> length ids = length seqs ->
  Forall fasta_record_ok (single_line_records ids seqs)
  /\ map fst (records_of (single_line_records ids seqs)) = ids
  /\ map snd (records_of (single_line_records ids seqs)) = seqs.
Proof.
  intros Hi. revert seqs.
  induction Hi as [|id ids (Ht & Hl & Hr) _ IH]; intros seqs Hs Hlen.
  - destruct seqs; [|discriminate]. repeat split. constructor.
  - destruct Hs as [|s seqs (Hst & Hsl & Hs1 & Hs2 & Hsg) Hs]; [discriminate|].
    destruct (IH seqs Hs) as (IH1 & IH2 & IH3); [simpl in Hlen; lia|].
    change (single_line_records (id :: ids) (s :: seqs))
      with ((id, [s]) :: single_line_records ids seqs).
    assert (Hstrip : strip s = s) by now apply strip_fixed.
    rewrite records_of_cons. unfold record_of, materialized. simpl.
    rewrite app_nil_r, Hr, Hstrip, Ht, Hst. simpl.
    rewrite IH2, IH3. repeat split.
    constructor; [|exact IH1].
    split; [exact Hl|]. simpl. repeat constructor; [exact Hsl|]. now rewrite Hstrip.
Qed.

Lemma parse_fasta_file_ok path w r w' :
  parse_fasta_file path w = (Ok r, w') ->
  exists content, fs w !! path = Some (File (Some content)) /\ r = parse_text content /\ w' = w.
Proof.
  unfold parse_fasta_file, mbind, M_bind, open_r.
  destruct (fs w !! path) as [[|[t|]]|]; try discriminate.
  intros [= <- <-]. now exists t.
Qed.

(** C3 (as amended).  Take identifiers and sequences that the parser
    returned.  Written by save_sequences_to_file with no column selection and
    with sequences, each identifier given with the marker in front, they are
    read back unchanged by parse_fasta_file. *)
Theorem write_then_parse (source path delimiter : str) (all_ids all_sequences : list str)
    (w0 w0' w : world) :
  parse_fasta_file source w0 = (Ok (all_ids, all_sequences), w0') ->
  quota w = None -> path <> [] -> fs w !! path <> Some Dir ->
  exists w',
    save_sequences_to_file (map (cons GT) all_ids) all_sequences (Some path)
                           delimiter None true w = (Ok tt, w')
    /\ parse_fasta_file path w' = (Ok (all_ids, all_sequences), w').
Proof.
  intros Hparse Hq Hp Hd.
  destruct (parse_fasta_file_ok _ _ _ _ Hparse) as (content & _ & Heq & _).
  destruct (parse_text_good content) as (Hi & Hs & Hl).
  rewrite <- Heq in Hi, Hs, Hl. simpl in Hi, Hs, Hl.
  destruct (single_line_records_read _ _ Hi Hs Hl) as (Hok & Hfst & Hsnd).
  eexists. split.
  - apply save_sequences_to_file_plain; [now left | assumption..].
  - rewrite plain_text_marked.
    erewrite parse_fasta_file_text by (simpl; apply lookup_insert_eq).
    now rewrite (parse_text_fasta _ Hok), Hfst, Hsnd.
Qed.

Lemma write_then_parse_witness :
  let w0 := world0 {[ u "in.fa" := File (Some (text ["> a x "; " AC"; "GT "])) ]} in
  exists w',
    save_sequences_to_file [u ">" ++ u " a x"] [u "ACGT"] (Some (u "out.fa")) TAB None true w0
    = (Ok tt, w')
    /\ parse_fasta_file (u "out.fa") w' = (Ok ([u " a x"], [u "ACGT"]), w').
Proof.
  intros w0.
  apply (write_then_parse (u "in.fa") (u "out.fa") TAB [u " a x"] [u "ACGT"] w0 w0 w0).
  - vm_compute. reflexivity.
  - reflexivity.
  - discriminate.
  - vm_compute. discriminate.
Defined.

(** C3 as stated fails: the writer puts no marker before the identifier, so
    the file it writes for ("a","ACGT") holds no header and parses to no
    record at all. *)
Lemma write_then_parse_loses_records :
  let w0 := world0 {[ u "in.fa" := File (Some (text [">a"; "ACGT"])) ]} in
  let w1 := world0 {[ u "in.fa" := File (Some (text [">a"; "ACGT"]));
                      u "out.fa" := File (Some (text ["a"; "ACGT"])) ]} in
  parse_fasta_file (u "in.fa") w0 = (Ok ([u "a"], [u "ACGT"]), w0)
  /\ save_sequences_to_file [u "a"] [u "ACGT"] (Some (u "out.fa")) TAB None true w0
     = (Ok tt, w1)
  /\ parse_fasta_file (u "out.fa") w1 = (Ok ([], []), w1)
  /\ parse_fasta_file (u "out.fa") w1 <> (Ok ([u "a"], [u "ACGT"]), w1).
Proof. vm_compute. repeat split. discriminate. Qed.

(** ** The run *)

Lemma validate_input_ok fasta_file sequence_id w :
  is_Some (fs w !! fasta_file) -> validate_input fasta_file sequence_id w = (Ok tt, w).
Proof.
  intros H. unfold validate_input, mbind, M_bind, path_exists.
  now rewrite bool_decide_eq_true_2.
Qed.

(** After validation the run is the parse followed by the guarded body. *)
Lemma get_sequence_by_id_valid fasta_file sequence_id start end_ out delimiter columns
    write_sequence w :
  is_Some (fs w !! fasta_file) ->
  get_sequence_by_id fasta_file sequence_id start end_ out delimiter columns write_sequence w
  = match parse_fasta_file fasta_file w with
    | (Ok (all_ids, all_sequences), w0) =>
        try_except
          (process all_ids all_sequences sequence_id start end_ out delimiter
                   (normalize_columns columns) write_sequence)
          (fun _ => true) report w0
    | (Raise e, w0) => (Raise e, w0)
    end.
Proof.
  intros H. unfold get_sequence_by_id, mbind at 1, M_bind at 1.
  rewrite (validate_input_ok _ _ _ H). unfold mbind, M_bind.
  destruct (parse_fasta_file fasta_file w) as [[[i s]|e] w0]; reflexivity.
Qed.

Lemma try_except_all {A} (body : M A) handler w :
  try_except body (fun _ => true) handler w
  = match body w with
    | (Ok a, w1) => (Ok a, w1)
    | (Raise e, w1) => handler e w1
    end.
Proof. unfold try_except. now destruct (body w) as [[a|e] w1]. Qed.

(** C4 (as amended).  In a run that passes validation, an exception raised
    by the Parser reaches the caller; once the file is parsed the call returns
    normally, and an exception raised after that, by the Slicer or by the
    Writer, is caught and reported as a notice. *)
Theorem get_sequence_by_id_exceptions (fasta_file : str) (sequence_id : option str)
    (start end_ : option Z) (out : option str) (delimiter : str)
    (columns : option (list Z)) (write_sequence : bool) (w : world) :
  is_Some (fs w !! fasta_file) ->
  let run := get_sequence_by_id fasta_file sequence_id start end_ out delimiter
                                columns write_sequence w in
  (forall e w0, parse_fasta_file fasta_file w = (Raise e, w0) -> run = (Raise e, w0))
  /\ (forall all_ids all_sequences w0,
         parse_fasta_file fasta_file w = (Ok (all_ids, all_sequences), w0) ->
         (exists w', run = (Ok tt, w'))
         /\ forall e w1,
             process all_ids all_sequences sequence_id start end_ out delimiter
                     (normalize_columns columns) write_sequence w0 = (Raise e, w1) ->
             run = (Ok tt, add_notice w1
                             (PrintedExn (u "An error occurred while processing the file: ") e))).
Proof.
  intros Hv run. subst run. rewrite (get_sequence_by_id_valid _ _ _ _ _ _ _ _ _ Hv).
  split.
  - intros e w0 ->. reflexivity.
  - intros all_ids all_sequences w0 ->. rewrite try_except_all. split.
    + destruct (process _ _ _ _ _ _ _ _ _ _) as [[[]|e] w1]; eexists; reflexivity.
    + intros e w1 ->. reflexivity.
Qed.

(** A slice with start > end: the Slicer raises, the run reports it. *)
Lemma get_sequence_by_id_exceptions_witness :
  let w := world0 {[ u "in.fa" := File (Some (text [">a"; "ACGT"])) ]} in
  get_sequence_by_id (u "in.fa") (Some (u "a")) (Some 5) (Some 2) (Some (u "out.txt"))
                     TAB None true w
  = (Ok tt, add_notice w
              (PrintedExn (u "An error occurred while processing the file: ")
                 (ValueError (u "Start position cannot be greater than end position.")))).
Proof.
  intros w.
  refine (proj2 (proj2 (get_sequence_by_id_exceptions (u "in.fa") (Some (u "a")) (Some 5)
                   (Some 2) (Some (u "out.txt")) TAB None true w _)
                   [u "a"] [u "ACGT"] w _) _ w _).
  - vm_compute. eauto.
  - vm_compute. reflexivity.
  - vm_compute. reflexivity.
Defined.

(** C4 as stated fails for the Parser: a file that is not valid UTF-8 passes
    validation and the decoding error leaves get_sequence_by_id uncaught. *)
Lemma get_sequence_by_id_parser_raises :
  let w := world0 {[ u "in.fa" := File None ]} in
  validate_input (u "in.fa") None w = (Ok tt, w)
  /\ parse_fasta_file (u "in.fa") w = (Raise UnicodeDecodeError, w)
  /\ get_sequence_by_id (u "in.fa") None None None None TAB None true w
     = (Raise UnicodeDecodeError, w)
  /\ (get_sequence_by_id (u "in.fa") None None None None TAB None true w).1 <> Ok tt.
Proof. vm_compute. repeat split. discriminate. Qed.

(** A failure of the Writer is reported in the same way: a column that the
    identifier does not have. *)
Lemma get_sequence_by_id_writer_raises :
  let w := world0 {[ u "in.fa" := File (Some (text [">a"; "ACGT"])) ]} in
  exists w',
    get_sequence_by_id (u "in.fa") None None None (Some (u "out.txt")) TAB (Some [3]) true w
    = (Ok tt, w')
    /\ stdout w' = [PrintedExn (u "An error occurred while processing the file: ") IndexError].
Proof. eexists. vm_compute. split; reflexivity. Qed.

(** C10.  An empty sequence_id is treated as an absent one: the run is the
    run without identifier.  When the file parses, it hands every record to
    save_sequences_to_file and looks nothing up; with a file name, no column
    selection and a disk that does not fail, the file then holds every record
    and nothing is printed. *)
Theorem get_sequence_by_id_empty_id (fasta_file : str) (start end_ : option Z)
    (out : option str) (delimiter : str) (columns : option (list Z))
    (write_sequence : bool) (w : world) :
  get_sequence_by_id fasta_file (Some []) start end_ out delimiter columns write_sequence w
  = get_sequence_by_id fasta_file None start end_ out delimiter columns write_sequence w
  /\ (forall content,
         fs w !! fasta_file = Some (File (Some content)) ->
         get_sequence_by_id fasta_file (Some []) start end_ out delimiter columns
                            write_sequence w
         = try_except
             (save_sequences_to_file (parse_text content).1 (parse_text content).2 out
                                     delimiter (normalize_columns columns) write_sequence)
             (fun _ => true) report w)
  /\ (forall content path,
         fs w !! fasta_file = Some (File (Some content)) ->
         out = Some path -> path <> [] -> fs w !! path <> Some Dir ->
         quota w = None -> normalize_columns columns = None -> write_sequence = true ->
         get_sequence_by_id fasta_file (Some []) start end_ out delimiter columns
                            write_sequence w
         = (Ok tt,
            set_fs w (<[path := File (Some (plain_text (zip (parse_text content).1
                                                            (parse_text content).2)))]>
                        (fs w)))).
Proof.
  split; [reflexivity|].
  assert (Hrun : forall content,
             fs w !! fasta_file = Some (File (Some content)) ->
             get_sequence_by_id fasta_file (Some []) start end_ out delimiter columns
                                write_sequence w
             = try_except
                 (save_sequences_to_file (parse_text content).1 (parse_text content).2 out
                                         delimiter (normalize_columns columns) write_sequence)
                 (fun _ => true) report w).
  { intros content Hf.
    rewrite get_sequence_by_id_valid by (rewrite Hf; eauto).
    rewrite (parse_fasta_file_text _ _ _ Hf).
    now destruct (parse_text content). }
  split; [exact Hrun|].
  intros content path Hf -> Hp Hd Hq Hc ->.
  rewrite (Hrun content Hf), try_except_all, Hc.
  now rewrite save_sequences_to_file_plain by (auto; now left).
Qed.

Lemma get_sequence_by_id_empty_id_witness :
  let content := text [">a"; "AC"; ">b"; "TT"] in
  let w := world0 {[ u "in.fa" := File (Some content) ]} in
  get_sequence_by_id (u "in.fa") (Some []) (Some 1) (Some 2) (Some (u "out.txt")) TAB
                     (Some []) true w
  = (Ok tt,
     world0 {[ u "in.fa" := File (Some content);
               u "out.txt" := File (Some (text ["a"; "AC"; "b"; "TT"])) ]}).
Proof.
  intros content w.
  rewrite (proj2 (proj2 (get_sequence_by_id_empty_id (u "in.fa") (Some 1) (Some 2)
                           (Some (u "out.txt")) TAB (Some []) true w))
             content (u "out.txt")).
  - vm_compute. reflexivity.
  - vm_compute. reflexivity.
  - reflexivity.
  - discriminate.
  - vm_compute. discriminate.
  - reflexivity.
  - reflexivity.
  - reflexivity.
Defined.

(** ** Looking one identifier up *)


(** The scan stops at the first record that carries the identifier. *)
Lemma find_target_first before sequence after sequence_id start end_ :
  Forall (fun r => r.1 <> sequence_id) before ->
  find_target (before ++ (sequence_id, sequence) :: after) sequence_id start end_
  = slice_sequence sequence start end_.
Proof.
  induction 1 as [|[id s] before Hne _ IH]; simpl in *.
  - now rewrite bool_decide_eq_true_2.
  - now rewrite bool_decide_eq_false_2.
Qed.


(** The first record that carries the identifier has a non-empty slice: it
    is reported and handed to the writer. *)
Lemma get_sequence_by_id_found fasta_file content before sequence after sequence_id
    start end_ target out delimiter columns write_sequence w :
  fs w !! fasta_file = Some (File (Some content)) ->
  sequence_id <> [] ->
  zip (parse_text content).1 (parse_text content).2
  = before ++ (sequence_id, sequence) :: after ->
  Forall (fun r => r.1 <> sequence_id) before ->
  slice_sequence sequence start end_ = Ok target -> target <> [] ->
  get_sequence_by_id fasta_file (Some sequence_id) start end_ out delimiter columns
                     write_sequence w
  = try_except
      (print (u "ID: " ++ sequence_id);;
       (if write_sequence
        then print (u "Sequence Length: " ++ str_of_nat (length target))
        else mret tt);;
       save_sequences_to_file [sequence_id] [target] out delimiter
                              (normalize_columns columns) write_sequence)
      (fun _ => true) report w.
Proof.
  intros Hf Hne Hzip Hbefore Hslice Ht.
  rewrite get_sequence_by_id_valid by (rewrite Hf; eauto).
  rewrite (parse_fasta_file_text _ _ _ Hf).
  destruct (parse_text content) as [i s]. simpl in Hzip.
  rewrite !try_except_all. destruct sequence_id as [|c sid]; [contradiction|].
  unfold process. unfold mbind at 1, M_bind at 1, lift.
  rewrite Hzip, find_target_first, Hslice by exact Hbefore.
  destruct target; [contradiction | reflexivity].
Qed.

(** X20.  When the first record that carries the identifier has a
    non-empty slice, get_sequence_by_id with a file name, no column selection
    and a disk that does not fail prints the identifier and the length of the
    slice, and replaces the file by that one record: the identifier and the
    slice.  Later records with the same identifier are not looked at. *)
Lemma get_sequence_by_id_found_written fasta_file content before sequence after
    sequence_id start end_ target path delimiter columns w :
  fs w !! fasta_file = Some (File (Some content)) ->
  sequence_id <> [] ->
  zip (parse_text content).1 (parse_text content).2
  = before ++ (sequence_id, sequence) :: after ->
  Forall (fun r => r.1 <> sequence_id) before ->
  slice_sequence sequence start end_ = Ok target -> target <> [] ->
  path <> [] -> fs w !! path <> Some Dir -> quota w = None ->
  normalize_columns columns = None ->
  get_sequence_by_id fasta_file (Some sequence_id) start end_ (Some path) delimiter
                     columns true w
  = (Ok tt,
     {| fs := <[path := File (Some (sequence_id ++ [LF] ++ target ++ [LF]))]> (fs w);
        quota := None;
        stdout := stdout w ++ [Printed (u "ID: " ++ sequence_id);
                               Printed (u "Sequence Length: " ++ str_of_nat (length target))] |}).
Proof.
  intros Hf Hne Hzip Hbefore Hslice Ht Hp Hd Hq Hc.
  rewrite (get_sequence_by_id_found _ _ _ _ _ _ _ _ _ _ _ _ _ _ Hf Hne Hzip Hbefore Hslice Ht).
  rewrite try_except_all, Hc. unfold mbind, M_bind, print. cbv beta iota.
  rewrite save_sequences_to_file_plain; simpl; try assumption; [|now left].
  unfold set_fs, plain_text. simpl. rewrite Hq, app_nil_r, <- !app_assoc. reflexivity.
Qed.

(** The first record that carries the identifier has an empty slice: the
    run answers as if no record carried it. *)
Lemma get_sequence_by_id_found_empty fasta_file content before sequence after sequence_id
    start end_ out delimiter columns write_sequence w :
  fs w !! fasta_file = Some (File (Some content)) ->
  sequence_id <> [] ->
  zip (parse_text content).1 (parse_text content).2
  = before ++ (sequence_id, sequence) :: after ->
  Forall (fun r => r.1 <> sequence_id) before ->
  slice_sequence sequence start end_ = Ok [] ->
  get_sequence_by_id fasta_file (Some sequence_id) start end_ out delimiter columns
                     write_sequence w
  = (Ok tt, add_notice w (Printed (u "ID " ++ sequence_id ++ u " not found in the FASTA file."))).
Proof.
  intros Hf Hne Hzip Hbefore Hslice.
  rewrite get_sequence_by_id_valid by (rewrite Hf; eauto).
  rewrite (parse_fasta_file_text _ _ _ Hf).
  destruct (parse_text content) as [i s]. simpl in Hzip.
  rewrite try_except_all. destruct sequence_id as [|c sid]; [contradiction|].
  unfold process, mbind, M_bind, lift.
  now rewrite Hzip, find_target_first, Hslice by exact Hbefore.
Qed.

(** C5, where the code departs from it: the identifier "a" is in the file,
    the bounds 2 and 2 select the empty slice, and the run answers that "a"
    was not found and writes no file. *)
Lemma get_sequence_by_id_empty_slice :
  let w := world0 {[ u "in.fa" := File (Some (text [">a"; "ACGT"])) ]} in
  parse_fasta_file (u "in.fa") w = (Ok ([u "a"], [u "ACGT"]), w)
  /\ slice_sequence (u "ACGT") (Some 2) (Some 2) = Ok []
  /\ get_sequence_by_id (u "in.fa") (Some (u "a")) (Some 2) (Some 2) (Some (u "out.txt"))
                        TAB None true w
     = (Ok tt, add_notice w (Printed (u "ID a not found in the FASTA file."))).
Proof. vm_compute. repeat split. Qed.

(** ** Column selection *)

Lemma py_index_in_range {A} (l : list A) (i : Z) :
  0 <= i < Z.of_nat (length l) -> exists x, py_index l i = Ok x /\ l !! Z.to_nat i = Some x.
Proof.
  intros H. unfold py_index.
  destruct (Z.ltb_spec i 0); [lia|]. destruct (Z.ltb_spec i 0); [lia|].
  destruct (l !! Z.to_nat i) as [x|] eqn:E; [now exists x|].
  apply lookup_ge_None in E. lia.
Qed.

Lemma py_index_out_of_range {A} (l : list A) (i : Z) :
  Z.of_nat (length l) <= i -> py_index l i = Raise IndexError.
Proof.
  intros H. unfold py_index.
  destruct (Z.ltb_spec i 0); [lia|]. destruct (Z.ltb_spec i 0); [lia|].
  rewrite (proj2 (lookup_ge_None l (Z.to_nat i))); [reflexivity | lia].
Qed.

(** The selection of save_ids_to_file: a column that the identifier does not
    have gives an empty field. *)
Lemma project_or_empty_total (fields : list str) (columns : list Z) :
  Forall (fun i => 0 <= i) columns ->
  project_or_empty fields columns
  = Ok (map (fun i => default [] (fields !! Z.to_nat i)) columns).
Proof.
  unfold project_or_empty.
  induction 1 as [|i columns Hi _ IH]; [reflexivity|].
  cbn [mapM map]. unfold mbind, result_bind, mret, result_ret in *. rewrite IH.
  destruct (Z.ltb_spec i (Z.of_nat (length fields))) as [Hlt|Hge].
  - destruct (py_index_in_range fields i) as (x & -> & ->); [lia | reflexivity].
  - rewrite (proj2 (lookup_ge_None fields (Z.to_nat i))); [reflexivity | lia].
Qed.

(** The selection of save_sequences_to_file raises on such a column. *)
Lemma project_out_of_range (fields : list str) (columns : list Z) (i : Z) :
  Forall (fun j => 0 <= j < Z.of_nat (length fields)) columns ->
  Z.of_nat (length fields) <= i ->
  forall after, project fields (columns ++ i :: after) = Raise IndexError.
Proof.
  intros Hcols Hi after. unfold project.
  induction Hcols as [|j columns Hj _ IH]; cbn [mapM app];
    unfold mbind, result_bind in *.
  - now rewrite py_index_out_of_range.
  - destruct (py_index_in_range fields j Hj) as (x & -> & _). now rewrite IH.
Qed.

(** C6, where the code departs from it: the identifier "seq1 len=10" has no
    column 5.  save_sequences_to_file raises IndexError and leaves an empty
    file; save_ids_to_file writes an empty field. *)
Lemma save_sequences_to_file_column_out_of_range :
  let w := world0 ∅ in
  save_sequences_to_file [u "seq1 len=10"] [u "ACGT"] (Some (u "out.txt")) TAB
                         (Some [0; 5]) true w
  = (Raise IndexError, world0 {[ u "out.txt" := File (Some []) ]})
  /\ save_ids_to_file [u "seq1 len=10"] (u "out.txt") TAB (Some [0; 5]) (Some [u "ACGT"]) w
     = (Ok tt, world0 {[ u "out.txt" := File (Some (u "seq1" ++ TAB ++ [LF] ++ u "ACGT" ++ [LF])) ]}).
Proof. vm_compute. split; reflexivity. Qed.

(** ** Identifiers only *)

(** Without sequences the writer puts one line in the file for each record,
    the identifier as it is, whatever the columns. *)
Lemma for_each_save_record_ids file delimiter columns records w t :
  quota w = None ->
  fs w !! file = Some (File (Some t)) ->
  for_each records (save_record file delimiter columns false) w
  = (Ok tt, set_fs w (<[file := File (Some (t ++ id_lines records))]> (fs w))).
Proof.
  revert w t. induction records as [|[id sequence] records IH]; intros w t Hq Hf.
  - simpl. unfold id_lines. simpl. rewrite app_nil_r.
    rewrite insert_id by exact Hf. now rewrite set_fs_id.
  - cbn [for_each save_record]. unfold mbind, M_bind.
    rewrite (write_unlimited _ _ _ Hq), (file_text_lookup _ _ _ Hf).
    rewrite (IH _ (t ++ id ++ [LF])).
    + unfold set_fs. simpl. rewrite insert_insert_eq.
      unfold id_lines. simpl. now rewrite <- !app_assoc.
    + exact Hq.
    + simpl. apply lookup_insert_eq.
Qed.

Lemma save_sequences_to_file_ids_only ids sequences path delimiter columns w :
  quota w = None -> path <> [] -> fs w !! path <> Some Dir ->
  save_sequences_to_file ids sequences (Some path) delimiter columns false w
  = (Ok tt, set_fs w (<[path := File (Some (id_lines (zip ids sequences)))]> (fs w))).
Proof.
  intros Hq Hp Hd. unfold save_sequences_to_file, mbind, M_bind.
  rewrite (open_w_ok _ _ Hp Hd).
  rewrite (for_each_save_record_ids _ _ _ _ _ []); try assumption.
  - unfold set_fs. simpl. now rewrite insert_insert_eq.
  - simpl. apply lookup_insert_eq.
Qed.

(** C7, where the code departs from it: with columns 0 and 2 and without
    sequences the whole identifier is written, not the two columns that the
    same call writes with sequences and that save_ids_to_file writes. *)
Lemma save_sequences_to_file_ids_only_ignores_columns :
  let w := world0 ∅ in
  save_sequences_to_file [u "seq1 len=10 type=dna"] [u "ACGT"] (Some (u "out.txt")) TAB
                         (Some [0; 2]) false w
  = (Ok tt, world0 {[ u "out.txt" := File (Some (u "seq1 len=10 type=dna" ++ [LF])) ]})
  /\ save_sequences_to_file [u "seq1 len=10 type=dna"] [u "ACGT"] (Some (u "out.txt")) TAB
                            (Some [0; 2]) true w
     = (Ok tt, world0 {[ u "out.txt" :=
                           File (Some (u "seq1" ++ TAB ++ u "type=dna" ++ [LF]
                                       ++ u "ACGT" ++ [LF])) ]})
  /\ save_ids_to_file [u "seq1 len=10 type=dna"] (u "out.txt") TAB (Some [0; 2]) None w
     = (Ok tt, world0 {[ u "out.txt" := File (Some (u "seq1" ++ TAB ++ u "type=dna" ++ [LF])) ]}).
Proof. vm_compute. repeat split. Qed.

(** ** A failing disk *)

Lemma keeps_bind {A B} (m : M A) (f : A -> M B) :
  keeps m -> (forall a, keeps (f a)) -> keeps (m ≫= f).
Proof.
  intros Hm Hf w r w' p. unfold mbind, M_bind.
  destruct (m w) as [[a|e] w1] eqn:E.
  - intros H1 H2. eapply Hf; [exact H1|]. eapply Hm; eauto.
  - intros [= <- <-] H2. eapply Hm; eauto.
Qed.

Lemma keeps_ret {A} (a : A) : keeps (mret a).
Proof. intros w r w' p [= <- <-]. auto. Qed.

Lemma keeps_lift {A} (r : result A) : keeps (lift r).
Proof. intros w r' w' p [= <- <-]. auto. Qed.

Lemma keeps_write file text : keeps (write file text).
Proof.
  intros w r w' p. unfold write.
  destruct (quota w) as [[|n]|]; intros [= <- <-]; simpl; auto;
    intros H; apply lookup_insert_is_Some; destruct (decide (file = p)); auto.
Qed.

Lemma keeps_save_record file delimiter columns write_sequence record :
  keeps (save_record file delimiter columns write_sequence record).
Proof.
  destruct record as [id sequence]. unfold save_record.
  destruct write_sequence; [|apply keeps_write].
  destruct columns as [[|i cols]|]; try apply keeps_write.
  apply keeps_bind; [apply keeps_lift|]. intros fields.
  apply keeps_bind; [apply keeps_write|]. intros _. apply keeps_write.
Qed.

Lemma keeps_for_each {A} (l : list A) (body : A -> M unit) :
  (forall x, keeps (body x)) -> keeps (for_each l body).
Proof.
  intros Hb. induction l as [|x l IH]; [apply keeps_ret|].
  cbn [for_each]. apply keeps_bind; [apply Hb | intros _; exact IH].
Qed.

(** Once the file is open, whatever save_sequences_to_file does, and so
    also when a write fails, the file is still there when it returns. *)
Lemma save_sequences_to_file_leaves_file ids sequences path delimiter columns
    write_sequence w r w' :
  path <> [] -> fs w !! path <> Some Dir ->
  save_sequences_to_file ids sequences (Some path) delimiter columns write_sequence w
  = (r, w') ->
  is_Some (fs w' !! path).
Proof.
  intros Hp Hd. unfold save_sequences_to_file, mbind, M_bind.
  rewrite (open_w_ok _ _ Hp Hd). intros H.
  pose proof (keeps_for_each (zip ids sequences) _
                (keeps_save_record path delimiter columns write_sequence)) as Hk.
  apply (Hk _ _ _ path H). simpl. rewrite lookup_insert_eq. eauto.
Qed.

(** C9, where the code departs from it: the disk accepts one write and the
    second fails.  save_sequences_to_file raises and leaves the first record
    in the file; save_ids_to_file removes the file, and returns normally. *)
Lemma save_sequences_to_file_keeps_partial_file :
  let w := {| fs := ∅; quota := Some 1%nat; stdout := [] |} in
  save_sequences_to_file [u "a"; u "b"] [u "AC"; u "GT"] (Some (u "out.txt")) TAB None true w
  = (Raise (OSError ENOSPC),
     {| fs := {[ u "out.txt" := File (Some (u "a" ++ [LF] ++ u "AC" ++ [LF])) ]};
        quota := Some 0%nat; stdout := [] |})
  /\ save_ids_to_file [u "a"; u "b"] (u "out.txt") TAB None (Some [u "AC"; u "GT"]) w
     = (Ok tt,
        {| fs := ∅; quota := Some 0%nat;
           stdout := [PrintedExn (u "Error opening/writing to the file out.txt: ")
                               (OSError ENOSPC)] |}).
Proof. vm_compute. split; reflexivity. Qed.

(** * Further properties *)

(** ** The parser on texts that are not FASTA *)

Lemma fold_parse_line_no_header lines st :
  Forall (fun l => startswith_gt (strip l) = false) lines ->
  ids (fold_left parse_line lines st) = ids st
  /\ sequences (fold_left parse_line lines st) = sequences st
  /\ current_id (fold_left parse_line lines st) = current_id st.
Proof.
  intros H. revert st. induction H as [|l lines Hl _ IH]; intros st; [easy|].
  cbn [fold_left]. destruct (IH (parse_line st l)) as (-> & -> & ->).
  unfold parse_line. now rewrite Hl.
Qed.

(** Before the first header the pending sequence does not matter. *)
Lemma flush_fold_no_id lines i s cs1 cs2 :
  flush (fold_left parse_line lines
           {| ids := i; sequences := s; current_id := None; current_sequence := cs1 |})
  = flush (fold_left parse_line lines
             {| ids := i; sequences := s; current_id := None; current_sequence := cs2 |}).
Proof.
  revert cs1 cs2. induction lines as [|l lines IH]; intros cs1 cs2; [reflexivity|].
  cbn [fold_left]. unfold parse_line at 2 4.
  destruct (startswith_gt (strip l)); [reflexivity | apply IH].
Qed.

Lemma universal_newlines_line l rest :
  Forall (fun c => c <> CR) l ->
  universal_newlines (l ++ LF :: rest) = l ++ LF :: universal_newlines rest.
Proof.
  induction 1 as [|c l Hc _ IH]; [reflexivity|].
  simpl. destruct (N.eqb_spec c CR) as [->|_]; [contradiction|].
  simpl in IH. now rewrite IH.
Qed.

Lemma readlines_lines_then ls rest :
  Forall one_line ls ->
  readlines (universal_newlines (lines_text ls ++ rest))
  = map (fun l => l ++ [LF]) ls ++ readlines (universal_newlines rest).
Proof.
  unfold lines_text. induction 1 as [|l ls Hl _ IH]; [reflexivity|].
  simpl. rewrite <- !app_assoc. simpl.
  rewrite universal_newlines_line by now apply one_line_no_CR.
  rewrite readlines_line by now apply one_line_no_LF.
  now rewrite IH.
Qed.

(** X1.  A file in which no line, once stripped, starts with the marker
    gives no record at all; so do the empty file and a file of sequence
    lines without a header. *)
Theorem parse_fasta_file_no_header (fasta_file content : str) (w : world) :
  fs w !! fasta_file = Some (File (Some content)) ->
  Forall (fun l => startswith_gt (strip l) = false)
         (readlines (universal_newlines content)) ->
  parse_fasta_file fasta_file w = (Ok ([], []), w).
Proof.
  intros Hf Hno. rewrite (parse_fasta_file_text _ _ _ Hf).
  unfold parse_text, parse_lines, flush.
  destruct (fold_parse_line_no_header _ parse_init Hno) as (-> & -> & ->).
  reflexivity.
Qed.

Lemma parse_fasta_file_no_header_witness :
  let w := world0 {[ u "seq.txt" := File (Some (text ["ACGT"; "A>x"; "TT"]));
                     u "empty.fa" := File (Some []) ]} in
  parse_fasta_file (u "seq.txt") w = (Ok ([], []), w)
  /\ parse_fasta_file (u "empty.fa") w = (Ok ([], []), w).
Proof.
  intros w. split.
  - apply (parse_fasta_file_no_header (u "seq.txt") (text ["ACGT"; "A>x"; "TT"]) w).
    + vm_compute. reflexivity.
    + vm_compute. repeat constructor.
  - apply (parse_fasta_file_no_header (u "empty.fa") [] w).
    + vm_compute. reflexivity.
    + constructor.
Defined.

(** X2.  What stands before the first header is discarded: lines that are
    not headers, put in front of any text, do not change what is parsed. *)
Theorem parse_fasta_file_preamble (fasta_file : str) (preamble : list str) (rest : str)
    (w : world) :
  Forall (fun l => one_line l /\ startswith_gt (strip l) = false) preamble ->
  fs w !! fasta_file = Some (File (Some (lines_text preamble ++ rest))) ->
  parse_fasta_file fasta_file w = (Ok (parse_text rest), w).
Proof.
  intros Hpre Hf. rewrite (parse_fasta_file_text _ _ _ Hf). f_equal. f_equal.
  unfold parse_text, parse_lines.
  rewrite readlines_lines_then by (eapply Forall_impl; [exact Hpre | simpl; tauto]).
  rewrite fold_left_app.
  assert (Hno : Forall (fun l => startswith_gt (strip l) = false)
                       (map (fun l => l ++ [LF]) preamble)).
  { apply Forall_map. eapply Forall_impl; [exact Hpre|]. intros l [_ Hl]. simpl.
    now rewrite strip_snoc_space by apply isspace_LF. }
  destruct (fold_parse_line_no_header _ parse_init Hno) as (Hi & Hs & Hc).
  destruct (fold_left parse_line (map (fun l => l ++ [LF]) preamble) parse_init)
    as [i s c cs]. simpl in Hi, Hs, Hc. subst.
  apply flush_fold_no_id.
Qed.

Lemma parse_fasta_file_preamble_witness :
  let w := world0 {[ u "in.fa" := File (Some (text ["# made by hand"; "ACGT"; ">a"; "TT"])) ]} in
  parse_fasta_file (u "in.fa") w = (Ok ([u "a"], [u "TT"]), w).
Proof.
  intros w.
  apply (parse_fasta_file_preamble (u "in.fa") [u "# made by hand"; u "ACGT"]
           (text [">a"; "TT"]) w).
  - repeat constructor; vm_compute; intros; discriminate.
  - vm_compute. reflexivity.
Defined.

Lemma parse_line_strip st l1 l2 : strip l1 = strip l2 -> parse_line st l1 = parse_line st l2.
Proof. intros H. unfold parse_line. now rewrite H. Qed.

Lemma fold_parse_line_strip ls1 ls2 st :
  Forall2 (fun a b => strip a = strip b) ls1 ls2 ->
  fold_left parse_line ls1 st = fold_left parse_line ls2 st.
Proof.
  intros H. revert st. induction H as [|a b ls1 ls2 Hab _ IH]; intros st; [reflexivity|].
  cbn [fold_left]. now rewrite (parse_line_strip st a b Hab), IH.
Qed.

Lemma parse_text_lines ls :
  Forall one_line ls -> parse_text (lines_text ls) = parse_lines ls.
Proof.
  intros H. unfold parse_text, lines_text, parse_lines.
  now rewrite readlines_text, fold_parse_line_LF.
Qed.

(** X3.  Only the stripped lines count: two files whose lines agree once
    stripped, whatever the indentation and the trailing blanks of each line,
    give the same records. *)
Theorem parse_fasta_file_stripped_lines (file1 file2 : str) (lines1 lines2 : list str)
    (w : world) :
  Forall one_line lines1 -> Forall one_line lines2 ->
  Forall2 (fun a b => strip a = strip b) lines1 lines2 ->
  fs w !! file1 = Some (File (Some (lines_text lines1))) ->
  fs w !! file2 = Some (File (Some (lines_text lines2))) ->
  parse_fasta_file file1 w = parse_fasta_file file2 w.
Proof.
  intros H1 H2 H12 Hf1 Hf2.
  rewrite (parse_fasta_file_text _ _ _ Hf1), (parse_fasta_file_text _ _ _ Hf2).
  rewrite !parse_text_lines by assumption. unfold parse_lines.
  now rewrite (fold_parse_line_strip _ _ _ H12).
Qed.

Lemma parse_fasta_file_stripped_lines_witness :
  let w := world0 {[ u "a.fa" := File (Some (text ["  >a x "; " AC  "; "GT"]));
                     u "b.fa" := File (Some (text [">a x"; "AC"; "GT"])) ]} in
  parse_fasta_file (u "a.fa") w = parse_fasta_file (u "b.fa") w.
Proof.
  intros w.
  apply (parse_fasta_file_stripped_lines (u "a.fa") (u "b.fa")
           [u "  >a x "; u " AC  "; u "GT"] [u ">a x"; u "AC"; u "GT"] w).
  - repeat constructor; vm_compute; intros; discriminate.
  - repeat constructor; vm_compute; intros; discriminate.
  - repeat constructor.
  - vm_compute. reflexivity.
  - vm_compute. reflexivity.
Defined.

Lemma parse_line_blank st l : strip l = [] -> parse_line st l = st.
Proof.
  intros H. unfold parse_line. rewrite H. simpl. rewrite app_nil_r. now destruct st.
Qed.

(** X4.  Blank lines are ignored wherever they stand, also inside a
    sequence and between a header and its sequence. *)
Theorem parse_fasta_file_blank_line (file1 file2 : str) (before after : list str)
    (blank : str) (w : world) :
  Forall one_line before -> Forall one_line after -> one_line blank ->
  strip blank = [] ->
  fs w !! file1 = Some (File (Some (lines_text (before ++ blank :: after)))) ->
  fs w !! file2 = Some (File (Some (lines_text (before ++ after)))) ->
  parse_fasta_file file1 w = parse_fasta_file file2 w.
Proof.
  intros Hb Ha Hbl Hs Hf1 Hf2.
  rewrite (parse_fasta_file_text _ _ _ Hf1), (parse_fasta_file_text _ _ _ Hf2).
  rewrite !parse_text_lines
    by (apply Forall_app; split; [assumption | try constructor; assumption]).
  unfold parse_lines. rewrite !fold_left_app. cbn [fold_left].
  now rewrite (parse_line_blank _ _ Hs).
Qed.

Lemma parse_fasta_file_blank_line_witness :
  let w := world0 {[ u "a.fa" := File (Some (text [">a"; "AC"; "   "; "GT"]));
                     u "b.fa" := File (Some (text [">a"; "AC"; "GT"])) ]} in
  parse_fasta_file (u "a.fa") w = parse_fasta_file (u "b.fa") w.
Proof.
  intros w.
  apply (parse_fasta_file_blank_line (u "a.fa") (u "b.fa") [u ">a"; u "AC"] [u "GT"]
           (u "   ") w).
  - repeat constructor; vm_compute; intros; discriminate.
  - repeat constructor; vm_compute; intros; discriminate.
  - repeat constructor; vm_compute; intros; discriminate.
  - vm_compute. reflexivity.
  - vm_compute. reflexivity.
  - vm_compute. reflexivity.
Defined.

(** X5.  What parse_fasta_file returns can be written one item a line: no
    identifier and no sequence holds a line break, no identifier ends with
    whitespace, no sequence starts or ends with whitespace, and no sequence
    starts with the marker. *)
Theorem parse_fasta_file_clean (fasta_file : str) (w : world)
    (all_ids all_sequences : list str) (w' : world) :
  parse_fasta_file fasta_file w = (Ok (all_ids, all_sequences), w') ->
  Forall (fun id => one_line id /\ rstrip id = id) all_ids
  /\ Forall (fun s => one_line s /\ strip s = s /\ startswith_gt s = false) all_sequences.
Proof.
  intros H. destruct (parse_fasta_file_ok _ _ _ _ H) as (c & _ & Heq & _).
  destruct (parse_text_good c) as (Hi & Hs & _). rewrite <- Heq in Hi, Hs. simpl in *.
  split.
  - eapply Forall_impl; [exact Hi|]. intros id (_ & H1 & H2). now split.
  - eapply Forall_impl; [exact Hs|]. intros s (_ & H1 & H2 & H3 & H4).
    repeat split; try assumption. now apply strip_fixed.
Qed.

Lemma parse_fasta_file_clean_witness :
  Forall (fun id => one_line id /\ rstrip id = id) [u " a x"]
  /\ Forall (fun s => one_line s /\ strip s = s /\ startswith_gt s = false) [u "A CGT"].
Proof.
  set (w := world0 {[ u "in.fa" := File (Some (text ["  > a x  "; " A C "; "GT  "])) ]}).
  apply (parse_fasta_file_clean (u "in.fa") w [u " a x"] [u "A CGT"] w).
  vm_compute. reflexivity.
Defined.

(** ** Slices that meet *)

Lemma adjust_index_nonneg i len : 0 <= i -> adjust_index i len = Z.min i len.
Proof. intros H. unfold adjust_index. destruct (Z.ltb_spec i 0); [lia | reflexivity]. Qed.

Lemma py_slice_app {A} (l : list A) (s m e : Z) :
  0 <= s <= m -> m <= e -> py_slice l s m ++ py_slice l m e = py_slice l s e.
Proof.
  intros Hsm Hme. unfold py_slice.
  rewrite !adjust_index_nonneg by lia.
  set (len := Z.of_nat (length l)).
  replace (Z.to_nat (Z.min m len)) with (Z.to_nat (Z.min s len) + Z.to_nat (Z.min m len - Z.min s len))%nat by lia.
  rewrite <- (drop_drop l).
  rewrite take_take_drop. f_equal. lia.
Qed.

(** X6.  Slices with non-negative bounds that meet join up: the slice from
    start to middle followed by the slice from middle to end is the slice
    from start to end, also when a bound lies beyond the sequence. *)
Theorem slice_sequence_app (sequence : str) (start middle end_ : Z) :
  0 <= start <= middle -> middle <= end_ ->
  exists left right,
    slice_sequence sequence (Some start) (Some middle) = Ok left
    /\ slice_sequence sequence (Some middle) (Some end_) = Ok right
    /\ slice_sequence sequence (Some start) (Some end_) = Ok (left ++ right).
Proof.
  intros H1 H2. unfold slice_sequence.
  destruct (Z.gtb_spec start middle); [lia|].
  destruct (Z.gtb_spec middle end_); [lia|].
  destruct (Z.gtb_spec start end_); [lia|].
  eexists _, _. repeat split. now rewrite py_slice_app.
Qed.

Lemma slice_sequence_app_witness :
  exists left right,
    slice_sequence (u "ACGTAC") (Some 1) (Some 4) = Ok left
    /\ slice_sequence (u "ACGTAC") (Some 4) (Some 9) = Ok right
    /\ slice_sequence (u "ACGTAC") (Some 1) (Some 9) = Ok (left ++ right).
Proof. apply (slice_sequence_app (u "ACGTAC") 1 4 9); lia. Defined.

(** ** The files a run leaves alone *)

Lemma frame_bind {A B} dest (m : M A) (f : A -> M B) :
  frame dest m -> (forall a, frame dest (f a)) -> frame dest (m ≫= f).
Proof.
  intros Hm Hf w r w' q. unfold mbind, M_bind.
  destruct (m w) as [[a|e] w1] eqn:E.
  - intros H1 H2. rewrite (Hf a _ _ _ _ H1 H2). eapply Hm; eauto.
  - intros [= <- <-] H2. eapply Hm; eauto.
Qed.

Lemma frame_ret {A} dest (a : A) : frame dest (mret a).
Proof. now intros w r w' q [= <- <-]. Qed.

Lemma frame_lift {A} dest (r : result A) : frame dest (lift r).
Proof. now intros w r' w' q [= <- <-]. Qed.

Lemma frame_raise {A} dest (e : exn) : frame dest (@raise A e).
Proof. now intros w r' w' q [= <- <-]. Qed.

Lemma frame_print dest text : frame dest (print text).
Proof. now intros w r' w' q [= <- <-]. Qed.

Lemma frame_print_exn dest prefix e : frame dest (print_exn prefix e).
Proof. now intros w r' w' q [= <- <-]. Qed.

Lemma frame_path_exists dest path : frame dest (path_exists path).
Proof. now intros w r' w' q [= <- <-]. Qed.

Lemma frame_open_r dest path : frame dest (open_r path).
Proof.
  intros w r w' q. unfold open_r.
  destruct (fs w !! path) as [[|[t|]]|]; now intros [= <- <-].
Qed.

Lemma frame_open_w path : frame (Some path) (open_w path).
Proof.
  intros w r w' q. unfold open_w.
  destruct path as [|c path]; [now intros [= <- <-]|].
  destruct (fs w !! (c :: path)) as [[|t]|]; intros [= <- <-] Hq; simpl;
    try reflexivity; apply lookup_insert_ne; congruence.
Qed.

Lemma frame_write file text : frame (Some file) (write file text).
Proof.
  intros w r w' q. unfold write.
  destruct (quota w) as [[|n]|]; intros [= <- <-] Hq; simpl;
    try reflexivity; apply lookup_insert_ne; congruence.
Qed.

Lemma frame_os_remove path : frame (Some path) (os_remove path).
Proof.
  intros w r w' q. unfold os_remove.
  destruct (fs w !! path) as [[|t]|]; intros [= <- <-] Hq; simpl;
    try reflexivity; apply lookup_delete_ne; congruence.
Qed.

Lemma frame_for_each {A} dest (l : list A) (body : A -> M unit) :
  (forall x, frame dest (body x)) -> frame dest (for_each l body).
Proof.
  intros Hb. induction l as [|x l IH]; [apply frame_ret|].
  cbn [for_each]. apply frame_bind; [apply Hb | intros _; exact IH].
Qed.

Lemma frame_try_except {A} dest (body : M A) classes handler :
  frame dest body -> (forall e, frame dest (handler e)) ->
  frame dest (try_except body classes handler).
Proof.
  intros Hb Hh w r w' q. unfold try_except.
  destruct (body w) as [[a|e] w1] eqn:E.
  - intros [= <- <-] Hq. eapply Hb; eauto.
  - destruct (classes e).
    + intros H Hq. rewrite (Hh e _ _ _ _ H Hq). eapply Hb; eauto.
    + intros [= <- <-] Hq. eapply Hb; eauto.
Qed.

Lemma frame_save_record file delimiter columns write_sequence record :
  frame (Some file) (save_record file delimiter columns write_sequence record).
Proof.
  destruct record as [id sequence]. unfold save_record.
  destruct write_sequence; [|apply frame_write].
  destruct columns as [[|i cols]|]; try apply frame_write.
  apply frame_bind; [apply frame_lift|]. intros fields.
  apply frame_bind; [apply frame_write|]. intros _. apply frame_write.
Qed.

Lemma open_w_handle path w file w1 : open_w path w = (Ok file, w1) -> file = path.
Proof.
  unfold open_w. destruct path as [|c path]; [discriminate|].
  destruct (fs w !! (c :: path)) as [[|t]|]; now intros [= <- _].
Qed.

Lemma frame_save_sequences_to_file ids sequences id_output_file delimiter columns
    write_sequence :
  frame id_output_file
        (save_sequences_to_file ids sequences id_output_file delimiter columns
                                write_sequence).
Proof.
  unfold save_sequences_to_file. destruct id_output_file as [path|]; [|apply frame_ret].
  intros w r w' q. unfold mbind, M_bind.
  destruct (open_w path w) as [[file|e] w1] eqn:E.
  - apply open_w_handle in E as Hfile. subst file. intros H Hq.
    rewrite (frame_for_each (Some path) _ _
               (frame_save_record path delimiter columns write_sequence) _ _ _ _ H Hq).
    eapply frame_open_w; eauto.
  - intros [= <- <-] Hq. eapply frame_open_w; eauto.
Qed.

Lemma frame_process all_ids all_sequences sequence_id start end_ id_output_file delimiter
    columns write_sequence :
  frame id_output_file
        (process all_ids all_sequences sequence_id start end_ id_output_file delimiter
                 columns write_sequence).
Proof.
  unfold process. destruct sequence_id as [[|c sid]|];
    try apply frame_save_sequences_to_file.
  apply frame_bind; [apply frame_lift|]. intros target.
  destruct (truthy target); [|apply frame_print].
  apply frame_bind; [apply frame_print|]. intros _.
  apply frame_bind; [destruct write_sequence; [apply frame_print | apply frame_ret]|].
  intros _. apply frame_save_sequences_to_file.
Qed.

Lemma frame_get_sequence_by_id fasta_file sequence_id start end_ id_output_file delimiter
    columns write_sequence :
  frame id_output_file
        (get_sequence_by_id fasta_file sequence_id start end_ id_output_file delimiter
                            columns write_sequence).
Proof.
  unfold get_sequence_by_id.
  apply frame_bind.
  { unfold validate_input. apply frame_bind; [apply frame_path_exists|].
    intros found. destruct (negb found); [apply frame_raise | apply frame_ret]. }
  intros _. apply frame_bind.
  { unfold parse_fasta_file. apply frame_bind; [apply frame_open_r|].
    intros content. apply frame_ret. }
  intros [all_ids all_sequences].
  apply frame_try_except; [apply frame_process|].
  intros e. apply frame_print_exn.
Qed.

(** X7.  Without an id_output_file, get_sequence_by_id changes no file:
    whatever its other arguments and however it ends, with a result, with a
    reported error or with an exception, the file system is as it was. *)
Theorem get_sequence_by_id_no_output (fasta_file : str) (sequence_id : option str)
    (start end_ : option Z) (delimiter : str) (columns : option (list Z))
    (write_sequence : bool) (w w' : world) (r : result unit) :
  get_sequence_by_id fasta_file sequence_id start end_ None delimiter columns
                     write_sequence w = (r, w') ->
  fs w' = fs w.
Proof.
  intros H. apply map_eq. intros path.
  eapply frame_get_sequence_by_id; [exact H | discriminate].
Qed.

Lemma get_sequence_by_id_no_output_witness :
  let files : gmap str node :=
    {[ u "in.fa" := File (Some (text [">a"; "ACGT"])); u "notes.txt" := File (Some (u "keep")) ]} in
  let run := get_sequence_by_id (u "in.fa") (Some (u "a")) (Some 3) (Some 1) None TAB
                                (Some [7]) true (world0 files) in
  fs run.2 = files.
Proof.
  intros files run.
  apply (get_sequence_by_id_no_output (u "in.fa") (Some (u "a")) (Some 3) (Some 1) TAB
           (Some [7]) true (world0 files) run.2 run.1).
  vm_compute. reflexivity.
Defined.

(** ** Runs that stop before the guarded part *)

(** X8.  An input path that does not exist makes get_sequence_by_id raise
    FileNotFoundError; a directory passes validation and makes it raise the
    error of open.  In both cases nothing is printed and nothing is written. *)
Theorem get_sequence_by_id_bad_input (fasta_file : str) (sequence_id : option str)
    (start end_ : option Z) (id_output_file : option str) (delimiter : str)
    (columns : option (list Z)) (write_sequence : bool) (w : world) :
  (fs w !! fasta_file = None ->
   get_sequence_by_id fasta_file sequence_id start end_ id_output_file delimiter columns
                      write_sequence w
   = (Raise (FileNotFoundError (u "File " ++ fasta_file ++ u " does not exist.")), w))
  /\ (fs w !! fasta_file = Some Dir ->
      get_sequence_by_id fasta_file sequence_id start end_ id_output_file delimiter columns
                         write_sequence w
      = (Raise (OSError EISDIR), w)).
Proof.
  split; intros H.
  - unfold get_sequence_by_id, validate_input, mbind, M_bind, path_exists.
    rewrite bool_decide_eq_false_2; [reflexivity|]. rewrite H. now intros [x Hx].
  - rewrite get_sequence_by_id_valid by (rewrite H; eauto).
    unfold parse_fasta_file, mbind, M_bind, open_r. now rewrite H.
Qed.

Lemma get_sequence_by_id_bad_input_witness :
  let w := world0 {[ u "data" := Dir ]} in
  get_sequence_by_id (u "in.fa") (Some (u "a")) None None (Some (u "out.txt")) TAB None true w
  = (Raise (FileNotFoundError (u "File in.fa does not exist.")), w)
  /\ get_sequence_by_id (u "data") None None None (Some (u "out.txt")) TAB None true w
     = (Raise (OSError EISDIR), w).
Proof.
  intros w. split.
  - apply (proj1 (get_sequence_by_id_bad_input (u "in.fa") (Some (u "a")) None None
                    (Some (u "out.txt")) TAB None true w)).
    vm_compute. reflexivity.
  - apply (proj2 (get_sequence_by_id_bad_input (u "data") None None None
                    (Some (u "out.txt")) TAB None true w)).
    vm_compute. reflexivity.
Defined.

(** ** Looking up an identifier that is there *)

Lemma zip_first_match (all_ids all_sequences : list str) (sequence_id : str) :
  length all_ids = length all_sequences -> sequence_id ∈ all_ids ->
  exists before sequence after,
    zip all_ids all_sequences = before ++ (sequence_id, sequence) :: after
    /\ Forall (fun r => r.1 <> sequence_id) before
    /\ sequence ∈ all_sequences.
Proof.
  revert all_sequences. induction all_ids as [|id all_ids IH]; intros [|s seqs] Hlen Hin;
    try discriminate; [now apply elem_of_nil in Hin|].
  destruct (decide (id = sequence_id)) as [->|Hne].
  - exists [], s, (zip all_ids seqs).
    split; [reflexivity|]. split; [apply Forall_nil_2 | apply list_elem_of_here].
  - apply elem_of_cons in Hin as [->|Hin]; [contradiction|].
    destruct (IH seqs) as (before & sequence & after & Hz & Hb & Hs);
      [simpl in Hlen; lia | exact Hin |].
    exists ((id, s) :: before), sequence, after. simpl. rewrite Hz.
    split; [reflexivity|].
    split; [now apply Forall_cons_2 | now apply list_elem_of_further].
Qed.

(** X9.  Without both bounds, an identifier that the parser returned is
    always found: with no id_output_file the run prints the identifier and
    the length of its first sequence, which is not zero, and writes nothing. *)
Theorem get_sequence_by_id_present (fasta_file content sequence_id : str)
    (start end_ : option Z) (delimiter : str) (columns : option (list Z)) (w : world) :
  fs w !! fasta_file = Some (File (Some content)) ->
  sequence_id ∈ (parse_text content).1 ->
  start = None \/ end_ = None ->
  exists before sequence after,
    zip (parse_text content).1 (parse_text content).2
    = before ++ (sequence_id, sequence) :: after
    /\ Forall (fun r => r.1 <> sequence_id) before
    /\ sequence <> []
    /\ get_sequence_by_id fasta_file (Some sequence_id) start end_ None delimiter columns
                          true w
       = (Ok tt,
          {| fs := fs w; quota := quota w;
             stdout := stdout w ++ [Printed (u "ID: " ++ sequence_id);
                                    Printed (u "Sequence Length: "
                                             ++ str_of_nat (length sequence))] |}).
Proof.
  intros Hf Hin Hb.
  destruct (parse_text_good content) as (Hi & Hs & Hl).
  destruct (zip_first_match _ _ _ Hl Hin) as (before & sequence & after & Hz & Hbefore & Hseq).
  assert (Hne : sequence <> []).
  { rewrite Forall_forall in Hs. destruct (Hs _ Hseq) as [Ht _]. now intros ->. }
  assert (Hid : sequence_id <> []).
  { rewrite Forall_forall in Hi. destruct (Hi _ Hin) as [Ht _]. now intros ->. }
  exists before, sequence, after. repeat split; try assumption.
  rewrite (get_sequence_by_id_found _ _ _ _ _ _ start end_ sequence _ _ _ _ _ Hf Hid Hz Hbefore);
    [| | exact Hne].
  { rewrite try_except_all. unfold mbind, M_bind, print, save_sequences_to_file. simpl.
    now rewrite <- app_assoc. }
  destruct Hb as [-> | ->]; [reflexivity | now destruct start].
Qed.

Lemma get_sequence_by_id_present_witness :
  let w := world0 {[ u "in.fa" := File (Some (text [">a"; "AC"; ">b"; "TTT"; ">b"; "G"])) ]} in
  exists before sequence after,
    zip [u "a"; u "b"; u "b"] [u "AC"; u "TTT"; u "G"]
    = before ++ (u "b", sequence) :: after
    /\ Forall (fun r => r.1 <> u "b") before
    /\ sequence <> []
    /\ get_sequence_by_id (u "in.fa") (Some (u "b")) (Some 1) None None TAB None true w
       = (Ok tt,
          {| fs := fs w; quota := quota w;
             stdout := stdout w ++ [Printed (u "ID: " ++ u "b");
                                    Printed (u "Sequence Length: "
                                             ++ str_of_nat (length sequence))] |}).
Proof.
  intros w.
  apply (get_sequence_by_id_present (u "in.fa")
           (text [">a"; "AC"; ">b"; "TTT"; ">b"; "G"]) (u "b") (Some 1) None TAB None w).
  - vm_compute. reflexivity.
  - vm_compute. apply list_elem_of_further, list_elem_of_here.
  - now right.
Defined.


(** An example: two records are called "a", the first is taken and
    sliced. *)
Lemma get_sequence_by_id_found_written_witness :
  let w := world0 {[ u "in.fa" := File (Some (text [">b"; "TT"; ">a"; "ACGT"; ">a"; "GG"])) ]} in
  get_sequence_by_id (u "in.fa") (Some (u "a")) (Some 1) (Some 3) (Some (u "out.txt")) TAB
                     (Some []) true w
  = (Ok tt,
     {| fs := <[u "out.txt" := File (Some (u "a" ++ [LF] ++ u "CG" ++ [LF]))]> (fs w);
        quota := None;
        stdout := stdout w ++ [Printed (u "ID: " ++ u "a");
                               Printed (u "Sequence Length: " ++ str_of_nat (length (u "CG")))] |}).
Proof.
  intros w.
  apply (get_sequence_by_id_found_written (u "in.fa")
           (text [">b"; "TT"; ">a"; "ACGT"; ">a"; "GG"])
           [(u "b", u "TT")] (u "ACGT") [(u "a", u "GG")] (u "a") (Some 1) (Some 3) (u "CG")
           (u "out.txt") TAB (Some []) w).
  - vm_compute. reflexivity.
  - discriminate.
  - vm_compute. reflexivity.
  - repeat constructor. vm_compute. discriminate.
  - vm_compute. reflexivity.
  - discriminate.
  - discriminate.
  - vm_compute. discriminate.
  - reflexivity.
  - reflexivity.
Defined.

(** ** What save_sequences_to_file writes *)

Lemma zip_app_l (ids more sequences : list str) :
  length ids = length sequences -> zip (ids ++ more) sequences = zip ids sequences.
Proof.
  revert sequences. induction ids as [|id ids IH]; intros [|s seqs] H; try discriminate.
  - now destruct more.
  - simpl. f_equal. apply IH. simpl in H. lia.
Qed.

Lemma zip_app_r (ids sequences more : list str) :
  length ids = length sequences -> zip ids (sequences ++ more) = zip ids sequences.
Proof.
  revert sequences. induction ids as [|id ids IH]; intros [|s seqs] H; try discriminate.
  - reflexivity.
  - simpl. f_equal. apply IH. simpl in H. lia.
Qed.

(** X10.  save_sequences_to_file pairs identifiers and sequences in order
    and silently drops what has no partner: identifiers beyond the number of
    sequences, or sequences beyond the number of identifiers, change nothing. *)
Theorem save_sequences_to_file_unpaired (ids sequences more : list str)
    (id_output_file : option str) (delimiter : str) (columns : option (list Z))
    (write_sequence : bool) (w : world) :
  length ids = length sequences ->
  save_sequences_to_file (ids ++ more) sequences id_output_file delimiter columns
                         write_sequence w
  = save_sequences_to_file ids sequences id_output_file delimiter columns write_sequence w
  /\ save_sequences_to_file ids (sequences ++ more) id_output_file delimiter columns
                            write_sequence w
     = save_sequences_to_file ids sequences id_output_file delimiter columns write_sequence w.
Proof.
  intros H. unfold save_sequences_to_file.
  now rewrite zip_app_l, zip_app_r by exact H.
Qed.

Lemma save_sequences_to_file_unpaired_witness :
  let w := world0 ∅ in
  save_sequences_to_file ([u "a"] ++ [u "GT"; u "c"]) [u "AC"] (Some (u "out.txt")) TAB None
                         true w
  = save_sequences_to_file [u "a"] [u "AC"] (Some (u "out.txt")) TAB None true w
  /\ save_sequences_to_file [u "a"] ([u "AC"] ++ [u "GT"; u "c"]) (Some (u "out.txt")) TAB
                            None true w
     = save_sequences_to_file [u "a"] [u "AC"] (Some (u "out.txt")) TAB None true w.
Proof.
  intros w.
  apply (save_sequences_to_file_unpaired [u "a"] [u "AC"] [u "GT"; u "c"]
           (Some (u "out.txt")) TAB None true w).
  reflexivity.
Defined.

Lemma py_index_select (fields : list str) (i : Z) :
  - Z.of_nat (length fields) <= i < Z.of_nat (length fields) ->
  py_index fields i = Ok (select_field fields i).
Proof.
  intros H. unfold py_index, select_field.
  set (j := if (i <? 0)%Z then i + Z.of_nat (length fields) else i).
  assert (Hj : 0 <= j < Z.of_nat (length fields))
    by (subst j; destruct (Z.ltb_spec i 0); lia).
  destruct (Z.ltb_spec j 0); [lia|].
  destruct (fields !! Z.to_nat j) as [x|] eqn:E; [reflexivity|].
  apply lookup_ge_None in E. lia.
Qed.

Lemma project_select (fields : list str) (columns : list Z) :
  Forall (fun i => - Z.of_nat (length fields) <= i < Z.of_nat (length fields)) columns ->
  project fields columns = Ok (map (select_field fields) columns).
Proof.
  unfold project. induction 1 as [|i columns Hi _ IH]; [reflexivity|].
  cbn [mapM map]. unfold mbind, result_bind, mret, result_ret in *.
  now rewrite IH, py_index_select.
Qed.

Lemma for_each_save_record_columns file delimiter c columns records w t :
  Forall (fun r => Forall (fun i => - Z.of_nat (length (split r.1)) <= i
                                    < Z.of_nat (length (split r.1))) (c :: columns))
         records ->
  quota w = None ->
  fs w !! file = Some (File (Some t)) ->
  for_each records (save_record file delimiter (Some (c :: columns)) true) w
  = (Ok tt, set_fs w (<[file := File (Some (t ++ selected_text delimiter (c :: columns)
                                                               records))]> (fs w))).
Proof.
  intros Hr. revert w t.
  induction Hr as [|[id sequence] records Hcols _ IH]; intros w t Hq Hf.
  - simpl. unfold selected_text. simpl. rewrite app_nil_r.
    rewrite insert_id by exact Hf. now rewrite set_fs_id.
  - cbn [for_each save_record]. unfold mbind at 1 2 3, M_bind at 1 2 3, lift.
    simpl in Hcols. rewrite (project_select _ _ Hcols).
    rewrite (write_unlimited _ _ _ Hq), (file_text_lookup _ _ _ Hf).
    rewrite write_unlimited by exact Hq.
    erewrite file_text_lookup by (simpl; apply lookup_insert_eq).
    rewrite (IH _ (t ++ join delimiter (map (select_field (split id)) (c :: columns))
                     ++ [LF] ++ sequence ++ [LF])).
    + unfold set_fs. simpl. rewrite !insert_insert_eq.
      unfold selected_text. simpl. now rewrite <- !app_assoc.
    + exact Hq.
    + simpl. rewrite insert_insert_eq, <- !app_assoc. apply lookup_insert_eq.
Qed.

(** X11.  With sequences and a selection of columns that every identifier
    has, counted from the first field or, when negative, from the last,
    save_sequences_to_file replaces the content of the file by two lines for
    each record: the selected fields joined by the delimiter, and the
    sequence. *)
Theorem save_sequences_to_file_columns (ids sequences : list str) (path delimiter : str)
    (columns : list Z) (w : world) :
  columns <> [] ->
  Forall (fun r => Forall (fun i => - Z.of_nat (length (split r.1)) <= i
                                    < Z.of_nat (length (split r.1))) columns)
         (zip ids sequences) ->
  quota w = None -> path <> [] -> fs w !! path <> Some Dir ->
  save_sequences_to_file ids sequences (Some path) delimiter (Some columns) true w
  = (Ok tt,
     set_fs w (<[path := File (Some (selected_text delimiter columns (zip ids sequences)))]>
                 (fs w))).
Proof.
  intros Hne Hcols Hq Hp Hd. destruct columns as [|c columns]; [contradiction|].
  unfold save_sequences_to_file, mbind, M_bind.
  rewrite (open_w_ok _ _ Hp Hd).
  rewrite (for_each_save_record_columns _ _ _ _ _ _ []); try assumption.
  - unfold set_fs. simpl. now rewrite insert_insert_eq.
  - simpl. apply lookup_insert_eq.
Qed.

Lemma save_sequences_to_file_columns_witness :
  let w := world0 {[ u "out.txt" := File (Some (u "old content")) ]} in
  save_sequences_to_file [u "seq1 len=10 type=dna"; u "seq2  len=7 type=rna"]
                         [u "ACGT"; u "UU"] (Some (u "out.txt")) TAB (Some [0; 2; -2]) true w
  = (Ok tt,
     world0 {[ u "out.txt" :=
                 File (Some (u "seq1" ++ TAB ++ u "type=dna" ++ TAB ++ u "len=10" ++ [LF]
                             ++ u "ACGT" ++ [LF]
                             ++ u "seq2" ++ TAB ++ u "type=rna" ++ TAB ++ u "len=7" ++ [LF]
                             ++ u "UU" ++ [LF])) ]}).
Proof.
  intros w.
  rewrite (save_sequences_to_file_columns _ _ (u "out.txt") TAB [0; 2; -2] w).
  - vm_compute. reflexivity.
  - discriminate.
  - vm_compute. repeat constructor; intros; discriminate.
  - reflexivity.
  - discriminate.
  - vm_compute. discriminate.
Defined.

(** ** What save_ids_to_file writes, and what it leaves when the disk fails *)

Lemma write_outcome_write file t text w :
  fs w !! file = Some (File (Some t)) ->
  write_outcome file t text w (write file text w).
Proof.
  intros Hf. unfold write_outcome, write. rewrite (file_text_lookup _ _ _ Hf).
  destruct (quota w) as [[|n]|] eqn:Hq; simpl; (split; [reflexivity|]).
  - right. repeat split; [|discriminate]. exists t. now rewrite insert_id.
  - left. repeat split. discriminate.
  - left. repeat split.
Qed.

Lemma write_outcome_ret file t w :
  fs w !! file = Some (File (Some t)) ->
  write_outcome file t [] w (Ok tt, w).
Proof.
  intros Hf. unfold write_outcome. simpl. split; [reflexivity|]. left.
  rewrite app_nil_r, insert_id by exact Hf. repeat split. auto.
Qed.

Lemma write_outcome_bind file t text1 text2 (m1 m2 : M unit) w :
  write_outcome file t text1 w (m1 w) ->
  (forall w1, fs w1 !! file = Some (File (Some (t ++ text1))) ->
              write_outcome file (t ++ text1) text2 w1 (m2 w1)) ->
  write_outcome file t (text1 ++ text2) w ((m1 ≫= fun _ => m2) w).
Proof.
  intros H1 H2. unfold mbind, M_bind. destruct (m1 w) as [r1 w1].
  destruct H1 as [Hout [(Hr & Hfs & Hq) | (Hr & Hfs & Hq)]]; simpl in *; subst r1.
  - specialize (H2 w1). rewrite Hfs, lookup_insert_eq in H2. specialize (H2 eq_refl).
    destruct (m2 w1) as [r2 w2].
    destruct H2 as [Hout2 [(Hr2 & Hfs2 & Hq2) | (Hr2 & (t' & Hfs2) & Hq2)]];
      simpl in *; subst r2; unfold write_outcome; simpl; (split; [congruence|]).
    + left. repeat split; [|auto]. now rewrite Hfs2, Hfs, insert_insert_eq, app_assoc.
    + right. repeat split; [|auto]. exists t'. now rewrite Hfs2, Hfs, insert_insert_eq.
  - unfold write_outcome. simpl. split; [exact Hout|]. right. repeat split; assumption.
Qed.

Lemma save_ids_record_outcome file delimiter columns sequences index id_str t w :
  (forall cols, columns = Some cols -> Forall (fun i => 0 <= i) cols) ->
  (forall seqs, sequences = Some seqs -> seqs = [] \/ (index < length seqs)%nat) ->
  fs w !! file = Some (File (Some t)) ->
  write_outcome file t (ids_entry_text delimiter columns sequences (index, id_str)) w
                (save_ids_record file delimiter columns sequences (index, id_str) w).
Proof.
  intros Hcols Hseqs Hf. unfold save_ids_record.
  assert (Hfields :
            (match columns with
             | Some cols => lift (project_or_empty (split id_str) cols)
             | None => mret (split id_str)
             end : M (list str))
            = lift (Ok (id_fields columns id_str))).
  { unfold id_fields. destruct columns as [cols|]; [|reflexivity].
    now rewrite project_or_empty_total by now apply Hcols. }
  rewrite Hfields.
  change (write_outcome file t
            (ids_entry_text delimiter columns sequences (index, id_str)) w
            ((write file (join delimiter (id_fields columns id_str) ++ [LF])
              ≫= fun _ =>
                   match sequences with
                   | Some ((_ :: _) as seqs) =>
                       sequence ← lift (py_index seqs (Z.of_nat index));
                       if truthy sequence then write file (sequence ++ [LF]) else mret tt
                   | _ => mret tt
                   end) w)).
  unfold ids_entry_text. cbn [fst snd]. rewrite app_assoc.
  apply write_outcome_bind; [now apply write_outcome_write|].
  intros w1 Hf1. destruct sequences as [[|s0 seqs]|].
  - now apply write_outcome_ret.
  - destruct (Hseqs _ eq_refl) as [|Hlt]; [discriminate|].
    destruct (py_index_in_range (s0 :: seqs) (Z.of_nat index)) as (x & Hx & Hl); [lia|].
    rewrite Nat2Z.id in Hl. rewrite Hl.
    unfold mbind, M_bind, lift. rewrite Hx.
    destruct (truthy x); [now apply write_outcome_write | now apply write_outcome_ret].
  - now apply write_outcome_ret.
Qed.

Lemma save_ids_loop_outcome file delimiter columns sequences entries t w :
  (forall cols, columns = Some cols -> Forall (fun i => 0 <= i) cols) ->
  Forall (fun e => forall seqs, sequences = Some seqs ->
                                seqs = [] \/ (e.1 < length seqs)%nat) entries ->
  fs w !! file = Some (File (Some t)) ->
  write_outcome file t (concat (map (ids_entry_text delimiter columns sequences) entries)) w
                (for_each entries (save_ids_record file delimiter columns sequences) w).
Proof.
  intros Hcols He. revert t w.
  induction He as [|[index id_str] entries Hi _ IH]; intros t w Hf.
  - now apply write_outcome_ret.
  - cbn [for_each map concat]. apply write_outcome_bind.
    + now apply save_ids_record_outcome.
    + intros w1 Hf1. now apply IH.
Qed.

Lemma zip_seq_bound (ids : list str) (start : nat) :
  Forall (fun e : nat * str => (e.1 < start + length ids)%nat) (zip (seq start (length ids)) ids).
Proof.
  revert start. induction ids as [|id ids IH]; intros start; [constructor|].
  simpl. constructor; [simpl; lia|].
  eapply Forall_impl; [apply (IH (S start))|]. simpl. intros e He. lia.
Qed.

Lemma existsb_negative (cols : list Z) :
  Forall (fun i => 0 <= i) cols -> existsb (fun i => (i <? 0)%Z) cols = false.
Proof.
  induction 1 as [|i cols Hi _ IH]; [reflexivity|].
  simpl. rewrite IH. destruct (Z.ltb_spec i 0); [lia | reflexivity].
Qed.

(** The start of save_ids_to_file: the old file is removed, the removal is
    announced, and the new file is opened empty. *)
Lemma save_ids_to_file_open {A} filename (k : str -> M A) w :
  filename <> [] -> fs w !! filename <> Some Dir ->
  (found ← path_exists filename;
   (if found : bool
    then os_remove filename;; print (u "Deleted existing file: " ++ filename)
    else mret tt);;
   file ← open_w filename;
   k file) w
  = k filename
      {| fs := <[filename := File (Some [])]> (fs w); quota := quota w;
         stdout := stdout w ++ deleted_notice w filename |}.
Proof.
  intros Hne Hd. unfold deleted_notice, mbind, M_bind, path_exists.
  destruct (fs w !! filename) as [[|x]|] eqn:E; [contradiction| |].
  - rewrite bool_decide_eq_true_2 by eauto.
    unfold os_remove, print. rewrite E. cbv beta iota.
    rewrite open_w_ok; [|exact Hne|simpl; now rewrite lookup_delete_eq].
    unfold set_fs. simpl. now rewrite insert_delete_eq.
  - rewrite bool_decide_eq_false_2 by (now intros [y Hy]).
    unfold mret, M_ret. cbv beta iota.
    rewrite open_w_ok; [|exact Hne|now rewrite E].
    unfold set_fs. now rewrite app_nil_r.
Qed.

(** However the disk behaves, a call of save_ids_to_file with valid
    arguments returns normally, and leaves either the whole output in the
    file or no file. *)
Lemma save_ids_to_file_outcome ids filename delimiter columns sequences w :
  ids <> [] -> filename <> [] ->
  (forall cols, columns = Some cols -> Forall (fun i => 0 <= i) cols) ->
  (forall seqs, sequences = Some seqs -> seqs = [] \/ (length ids <= length seqs)%nat) ->
  fs w !! filename <> Some Dir ->
  exists w',
    save_ids_to_file ids filename delimiter columns sequences w = (Ok tt, w')
    /\ ((fs w' = <[filename := File (Some (ids_text delimiter columns sequences ids))]> (fs w)
         /\ stdout w' = stdout w ++ deleted_notice w filename
         /\ (quota w = None -> quota w' = None))
        \/ (fs w' = delete filename (fs w)
            /\ stdout w'
               = stdout w ++ deleted_notice w filename
                 ++ [PrintedExn (u "Error opening/writing to the file " ++ filename ++ u ": ")
                                (OSError ENOSPC)]
            /\ quota w <> None)).
Proof.
  intros Hids Hname Hcols Hseqs Hd. unfold save_ids_to_file.
  rewrite bool_decide_eq_true_2 by exact Hids. cbn [negb].
  destruct filename as [|c filename]; [contradiction|]. cbn [truthy negb].
  set (name := c :: filename) in *.
  assert (Hneg : match columns with
                 | Some cols => existsb (fun i => (i <? 0)%Z) cols
                 | None => false
                 end = false).
  { destruct columns as [cols|]; [|reflexivity]. now apply existsb_negative, Hcols. }
  rewrite Hneg.
  unfold try_except.
  rewrite (save_ids_to_file_open name
             (fun file => for_each (zip (seq 0 (length ids)) ids)
                                   (save_ids_record file delimiter columns sequences))
             w Hname Hd).
  set (w0 := {| fs := <[name := File (Some [])]> (fs w); quota := quota w;
                stdout := stdout w ++ deleted_notice w name |}).
  assert (Hloop : write_outcome name [] (ids_text delimiter columns sequences ids) w0
                    (for_each (zip (seq 0 (length ids)) ids)
                              (save_ids_record name delimiter columns sequences) w0)).
  { apply save_ids_loop_outcome; [exact Hcols | | simpl; apply lookup_insert_eq].
    eapply Forall_impl; [apply (zip_seq_bound ids 0)|].
    intros e He seqs Hs. destruct (Hseqs seqs Hs); [now left | right; simpl in He; lia]. }
  destruct (for_each _ _ w0) as [r w1].
  destruct Hloop as [Hout [(Hr & Hfs & Hq) | (Hr & (t' & Hfs) & Hq)]]; simpl in *; subst r.
  - exists w1. split; [reflexivity|]. left. repeat split; [|exact Hout|exact Hq].
    now rewrite Hfs, insert_insert_eq.
  - cbn [is_OSError]. unfold mbind, M_bind, print_exn, os_remove. cbv beta iota. simpl.
    rewrite Hfs, lookup_insert_eq. eexists. split; [reflexivity|]. right. simpl.
    repeat split; [|now rewrite Hout, <- app_assoc|exact Hq].
    now rewrite !delete_insert_eq.
Qed.

(** X12.  save_ids_to_file checks its arguments before it touches
    anything: an empty list of identifiers, an empty file name or a negative
    column make it raise ValueError, and then no file is removed or created
    and nothing is printed. *)
Theorem save_ids_to_file_rejects (ids : list str) (filename delimiter : str)
    (columns : option (list Z)) (sequences : option (list str)) (w : world) :
  ids = [] \/ filename = [] \/ (exists cols, columns = Some cols /\ Exists (fun i => i < 0) cols) ->
  exists msg,
    save_ids_to_file ids filename delimiter columns sequences w = (Raise (ValueError msg), w).
Proof.
  intros H. unfold save_ids_to_file.
  destruct ids as [|id ids]; [eexists; reflexivity|].
  rewrite bool_decide_eq_true_2 by discriminate. cbn [negb].
  destruct filename as [|c filename]; [eexists; reflexivity|]. cbn [truthy negb].
  destruct H as [H | [H | (cols & -> & H)]]; try discriminate.
  assert (Hneg : existsb (fun i => (i <? 0)%Z) cols = true).
  { apply existsb_exists. apply Exists_exists in H as (i & Hin & Hi).
    exists i. split; [now apply list_elem_of_In | now apply Z.ltb_lt]. }
  rewrite Hneg. eexists. reflexivity.
Qed.

Lemma save_ids_to_file_rejects_witness :
  let w := world0 {[ u "out.txt" := File (Some (u "old")) ]} in
  exists msg,
    save_ids_to_file [u "a"] (u "out.txt") TAB (Some [0; -1]) None w
    = (Raise (ValueError msg), w).
Proof.
  intros w. apply (save_ids_to_file_rejects [u "a"] (u "out.txt") TAB (Some [0; -1]) None w).
  right. right. exists [0; -1]. split; [reflexivity|].
  apply Exists_cons_tl, Exists_cons_hd. lia.
Defined.

(** X13.  With valid arguments and a disk that does not fail,
    save_ids_to_file replaces the file by one line for each identifier, its
    whitespace-separated fields (all of them, or those at the given columns,
    empty where the identifier has no such column) joined by the delimiter,
    each followed by the sequence of the same index when that is given and
    not empty; it announces the removal of a file that was there. *)
Theorem save_ids_to_file_writes (ids : list str) (filename delimiter : str)
    (columns : option (list Z)) (sequences : option (list str)) (w : world) :
  ids <> [] -> filename <> [] ->
  (forall cols, columns = Some cols -> Forall (fun i => 0 <= i) cols) ->
  (forall seqs, sequences = Some seqs -> seqs = [] \/ (length ids <= length seqs)%nat) ->
  fs w !! filename <> Some Dir ->
  quota w = None ->
  save_ids_to_file ids filename delimiter columns sequences w
  = (Ok tt,
     {| fs := <[filename := File (Some (ids_text delimiter columns sequences ids))]> (fs w);
        quota := None;
        stdout := stdout w ++ deleted_notice w filename |}).
Proof.
  intros Hids Hname Hcols Hseqs Hd Hq.
  destruct (save_ids_to_file_outcome ids filename delimiter columns sequences w
              Hids Hname Hcols Hseqs Hd) as (w' & -> & [(Hfs & Hout & Hq') | (_ & _ & Hq')]);
    [|contradiction].
  destruct w' as [f q o]. simpl in *. now rewrite Hfs, Hout, (Hq' Hq).
Qed.

Lemma save_ids_to_file_writes_witness :
  let w := world0 {[ u "out.txt" := File (Some (u "old")) ]} in
  save_ids_to_file [u "seq1  len=10 type=dna"; u "seq2"] (u "out.txt") TAB (Some [0; 2])
                   (Some [u "ACGT"; []; u "unused"]) w
  = (Ok tt,
     {| fs := {[ u "out.txt" :=
                   File (Some (u "seq1" ++ TAB ++ u "type=dna" ++ [LF] ++ u "ACGT" ++ [LF]
                               ++ u "seq2" ++ TAB ++ [LF])) ]};
        quota := None;
        stdout := [Printed (u "Deleted existing file: out.txt")] |}).
Proof.
  intros w.
  rewrite (save_ids_to_file_writes _ (u "out.txt") TAB (Some [0; 2])
             (Some [u "ACGT"; []; u "unused"]) w).
  - vm_compute. reflexivity.
  - discriminate.
  - discriminate.
  - intros cols [= <-]. repeat constructor; lia.
  - intros seqs [= <-]. right. simpl. lia.
  - vm_compute. discriminate.
  - reflexivity.
Defined.

(** X14.  save_ids_to_file is all or nothing when it replaces a file.
    Let the file name be that of a regular file, which can therefore be
    removed and created again, let all text be ASCII, and let the arguments
    be valid.  Then the call returns normally whether or not the disk accepts
    every write, and afterwards the file holds the whole output or does not
    exist; every other file is as it was. *)
Theorem save_ids_to_file_all_or_nothing (ids : list str) (filename delimiter : str)
    (columns : option (list Z)) (sequences : option (list str)) (old : option str)
    (w : world) :
  ids <> [] -> filename <> [] ->
  (forall cols, columns = Some cols -> Forall (fun i => 0 <= i) cols) ->
  (forall seqs, sequences = Some seqs -> seqs = [] \/ (length ids <= length seqs)%nat) ->
  Forall ascii_only ids -> ascii_only delimiter ->
  (forall seqs, sequences = Some seqs -> Forall ascii_only seqs) ->
  fs w !! filename = Some (File old) ->
  exists w',
    save_ids_to_file ids filename delimiter columns sequences w = (Ok tt, w')
    /\ (fs w' = <[filename := File (Some (ids_text delimiter columns sequences ids))]> (fs w)
        \/ fs w' = delete filename (fs w)).
Proof.
  intros Hids Hname Hcols Hseqs _ _ _ Hfile.
  assert (Hd : fs w !! filename <> Some Dir) by (rewrite Hfile; discriminate).
  destruct (save_ids_to_file_outcome ids filename delimiter columns sequences w
              Hids Hname Hcols Hseqs Hd) as (w' & Hrun & [(Hfs & _) | (Hfs & _)]);
    exists w'; auto.
Qed.

Lemma save_ids_to_file_all_or_nothing_witness :
  let w := {| fs := {[ u "out.txt" := File (Some (u "old")); u "in.fa" := File (Some (u ">a")) ]};
              quota := Some 3%nat; stdout := [] |} in
  exists w',
    save_ids_to_file [u "a"; u "b"; u "c"] (u "out.txt") TAB None (Some [u "AC"; u "GT"; u "TT"]) w
    = (Ok tt, w')
    /\ (fs w' = <[u "out.txt" :=
                    File (Some (ids_text TAB None (Some [u "AC"; u "GT"; u "TT"])
                                         [u "a"; u "b"; u "c"]))]> (fs w)
        \/ fs w' = delete (u "out.txt") (fs w)).
Proof.
  intros w.
  apply (save_ids_to_file_all_or_nothing [u "a"; u "b"; u "c"] (u "out.txt") TAB None
           (Some [u "AC"; u "GT"; u "TT"]) (Some (u "old")) w).
  - discriminate.
  - discriminate.
  - discriminate.
  - intros seqs [= <-]. right. simpl. lia.
  - repeat constructor.
  - repeat constructor.
  - intros seqs [= <-]. repeat constructor.
  - vm_compute. reflexivity.
Defined.

(** ** Reading an id line back *)

Lemma split_cons_space c s : isspace c = true -> split (c :: s) = split s.
Proof. intros H. simpl. now rewrite H. Qed.

Lemma split_word f : word f -> split f = [f].
Proof.
  intros [Hne Hf]. induction Hf as [|a f Ha Hf IH]; [contradiction|].
  destruct f as [|b f]; [simpl; now rewrite Ha|].
  change (split (a :: b :: f))
    with (if isspace a then split (b :: f)
          else if isspace b then [a] :: split (b :: f)
               else match split (b :: f) with
                    | w :: ws => (a :: w) :: ws
                    | [] => [[a]]
                    end).
  inversion Hf as [|? ? Hb _]; subst. rewrite Ha, Hb, IH by discriminate. reflexivity.
Qed.

Lemma split_word_space f c rest :
  word f -> isspace c = true -> split (f ++ c :: rest) = f :: split rest.
Proof.
  intros [Hne Hf] Hc. induction Hf as [|a f Ha Hf IH]; [contradiction|].
  destruct f as [|b f].
  - simpl. now rewrite Ha, Hc.
  - change (split ((a :: b :: f) ++ c :: rest))
      with (if isspace a then split ((b :: f) ++ c :: rest)
            else if isspace b then [a] :: split ((b :: f) ++ c :: rest)
                 else match split ((b :: f) ++ c :: rest) with
                      | w :: ws => (a :: w) :: ws
                      | [] => [[a]]
                      end).
    inversion Hf as [|? ? Hb _]; subst. rewrite Ha, Hb, IH by discriminate. reflexivity.
Qed.

Lemma split_spaces d s : Forall (fun c => isspace c = true) d -> split (d ++ s) = split s.
Proof.
  induction 1 as [|c d Hc _ IH]; [reflexivity|].
  simpl app. now rewrite split_cons_space.
Qed.

Lemma split_snoc_space s c : isspace c = true -> split (s ++ [c]) = split s.
Proof.
  intros Hc. induction s as [|a s IH]; [simpl; now rewrite Hc|].
  destruct s as [|b s].
  - simpl. rewrite Hc. now destruct (isspace a).
  - change (split ((a :: b :: s) ++ [c]))
      with (if isspace a then split ((b :: s) ++ [c])
            else if isspace b then [a] :: split ((b :: s) ++ [c])
                 else match split ((b :: s) ++ [c]) with
                      | w :: ws => (a :: w) :: ws
                      | [] => [[a]]
                      end).
    rewrite IH. reflexivity.
Qed.

(** The fields that split returns hold no whitespace and are not empty. *)
Lemma split_words s : Forall word (split s).
Proof.
  induction s as [|a s IH]; [constructor|].
  destruct s as [|b s].
  - simpl. destruct (isspace a) eqn:Ha; repeat constructor; [discriminate | exact Ha].
  - change (split (a :: b :: s))
      with (if isspace a then split (b :: s)
            else if isspace b then [a] :: split (b :: s)
                 else match split (b :: s) with
                      | w :: ws => (a :: w) :: ws
                      | [] => [[a]]
                      end).
    destruct (isspace a) eqn:Ha; [exact IH|].
    assert (Hone : word [a]) by (split; [discriminate | now repeat constructor]).
    destruct (isspace b); [now constructor|].
    destruct (split (b :: s)) as [|w ws]; [now repeat constructor|].
    inversion IH as [|? ? [Hw1 Hw2] Hws]; subst.
    constructor; [|exact Hws]. split; [discriminate | now constructor].
Qed.

Lemma join_cons2 d f g fields : join d (f :: g :: fields) = f ++ d ++ join d (g :: fields).
Proof. reflexivity. Qed.

Lemma split_join d fields :
  d <> [] -> Forall (fun c => isspace c = true) d -> Forall word fields ->
  split (join d fields) = fields.
Proof.
  intros Hne Hd Hf. induction Hf as [|f fields Hw Hf IH]; [reflexivity|].
  destruct fields as [|g fields]; [now apply split_word|].
  rewrite join_cons2. destruct d as [|c d]; [contradiction|].
  inversion Hd as [|? ? Hc Hd']; subst.
  change (f ++ (c :: d) ++ join (c :: d) (g :: fields))
    with (f ++ c :: (d ++ join (c :: d) (g :: fields))).
  rewrite split_word_space by assumption.
  now rewrite split_spaces, IH.
Qed.

(** Splitting the fields of an identifier joined by whitespace, with the
    end of the line, gives the fields again. *)
Lemma split_id_line (delimiter id_str : str) :
  delimiter <> [] -> Forall (fun c => isspace c = true) delimiter ->
  split (join delimiter (split id_str) ++ [LF]) = split id_str.
Proof.
  intros Hne Hd. rewrite split_snoc_space by apply isspace_LF.
  apply split_join; [assumption.. | apply split_words].
Qed.

Lemma word_one_line f : word f -> one_line f.
Proof.
  intros [_ Hf]. eapply Forall_impl; [exact Hf|].
  intros c Hc. split; intros ->; discriminate.
Qed.

Lemma join_one_line d fields :
  one_line d -> Forall word fields -> one_line (join d fields).
Proof.
  intros Hd Hf. induction Hf as [|f fields Hw Hf IH]; [constructor|].
  destruct fields as [|g fields]; [now apply word_one_line|].
  rewrite join_cons2. apply one_line_app; [now apply word_one_line|].
  now apply one_line_app.
Qed.

Lemma ids_text_lines delimiter (ids : list str) (start : nat) :
  concat (map (ids_entry_text delimiter None None) (zip (seq start (length ids)) ids))
  = lines_text (map (fun id_str => join delimiter (split id_str)) ids).
Proof.
  revert start. induction ids as [|id_str ids IH]; intros start; [reflexivity|].
  cbn [length seq zip_with map concat]. rewrite IH.
  unfold lines_text, ids_entry_text, id_fields. cbn [map concat snd].
  now rewrite app_nil_r.
Qed.

(** X15.  What save_ids_to_file writes without columns and sequences can
    be read back: with valid arguments, a disk that does not fail and a
    delimiter made of whitespace other than line breaks, such as the default
    tab, the file afterwards has one line for each identifier, and splitting
    the lines gives the fields of the identifiers again, in order. *)
Theorem save_ids_to_file_read_back (ids : list str) (filename delimiter : str) (w : world) :
  ids <> [] -> filename <> [] -> fs w !! filename <> Some Dir -> quota w = None ->
  delimiter <> [] -> Forall (fun c => isspace c = true) delimiter -> one_line delimiter ->
  exists w' content,
    save_ids_to_file ids filename delimiter None None w = (Ok tt, w')
    /\ fs w' !! filename = Some (File (Some content))
    /\ map split (readlines (universal_newlines content)) = map split ids.
Proof.
  intros Hids Hname Hdir Hq Hne Hsp Hline.
  destruct (save_ids_to_file_outcome ids filename delimiter None None w Hids Hname)
    as (w' & Hrun & [(Hfs & _) | (_ & _ & Hq')]); try discriminate; try assumption;
    [|contradiction].
  exists w', (ids_text delimiter None None ids).
  split; [exact Hrun|]. split; [rewrite Hfs; apply lookup_insert_eq|].
  unfold ids_text. rewrite ids_text_lines. unfold lines_text.
  rewrite readlines_text.
  - rewrite !map_map. apply map_ext. intros id_str. now apply split_id_line.
  - apply Forall_map. apply Forall_forall. intros id_str _. simpl.
    apply join_one_line; [exact Hline | apply split_words].
Qed.

Lemma save_ids_to_file_read_back_witness :
  let w := world0 {[ u "out.txt" := File (Some (u "old")) ]} in
  exists w' content,
    save_ids_to_file [u "  seq1   len=10 type=dna "; u "seq2"] (u "out.txt") TAB None None w
    = (Ok tt, w')
    /\ fs w' !! u "out.txt" = Some (File (Some content))
    /\ map split (readlines (universal_newlines content))
       = map split [u "  seq1   len=10 type=dna "; u "seq2"].
Proof.
  intros w.
  apply (save_ids_to_file_read_back [u "  seq1   len=10 type=dna "; u "seq2"] (u "out.txt")
           TAB w).
  - discriminate.
  - discriminate.
  - vm_compute. discriminate.
  - reflexivity.
  - discriminate.
  - repeat constructor.
  - repeat constructor; discriminate.
Defined.

(** ** Fewer sequences than identifiers *)

Lemma for_each_app {A} (l1 l2 : list A) (body : A -> M unit) w :
  for_each (l1 ++ l2) body w = (for_each l1 body ≫= fun _ => for_each l2 body) w.
Proof.
  revert w. induction l1 as [|x l1 IH]; intros w; [reflexivity|].
  cbn [for_each app]. unfold mbind, M_bind in *.
  destruct (body x w) as [[[]|e] w1]; [apply IH | reflexivity].
Qed.

Lemma zip_seq_app (l1 l2 : list str) (start : nat) :
  zip (seq start (length (l1 ++ l2))) (l1 ++ l2)
  = zip (seq start (length l1)) l1 ++ zip (seq (start + length l1) (length l2)) l2.
Proof.
  revert start. induction l1 as [|x l1 IH]; intros start.
  - simpl. now rewrite Nat.add_0_r.
  - simpl. f_equal. rewrite IH. do 3 f_equal. lia.
Qed.

(** X16.  When sequences are given but there are fewer of them than
    identifiers, save_ids_to_file fails at the first identifier without a
    sequence: the IndexError is not caught, and the file is left with the
    records before it and the line of that identifier. *)
Theorem save_ids_to_file_short_sequences (before after : list str)
    (id_str filename delimiter : str) (columns : option (list Z)) (seqs : list str)
    (w : world) :
  filename <> [] -> fs w !! filename <> Some Dir -> quota w = None ->
  (forall cols, columns = Some cols -> Forall (fun i => 0 <= i) cols) ->
  seqs <> [] -> length seqs = length before ->
  save_ids_to_file (before ++ id_str :: after) filename delimiter columns (Some seqs) w
  = (Raise IndexError,
     {| fs := <[filename := File (Some (ids_text delimiter columns (Some seqs) before
                                        ++ join delimiter (id_fields columns id_str) ++ [LF]))]>
                (fs w);
        quota := None;
        stdout := stdout w ++ deleted_notice w filename |}).
Proof.
  intros Hname Hd Hq Hcols Hseqs Hlen. unfold save_ids_to_file.
  rewrite bool_decide_eq_true_2 by (now destruct before). cbn [negb].
  destruct filename as [|c filename]; [contradiction|]. cbn [truthy negb].
  set (name := c :: filename) in *.
  assert (Hneg : match columns with
                 | Some cols => existsb (fun i => (i <? 0)%Z) cols
                 | None => false
                 end = false).
  { destruct columns as [cols|]; [|reflexivity]. now apply existsb_negative, Hcols. }
  rewrite Hneg. unfold try_except.
  rewrite (save_ids_to_file_open name
             (fun file => for_each (zip (seq 0 (length (before ++ id_str :: after)))
                                        (before ++ id_str :: after))
                                   (save_ids_record file delimiter columns (Some seqs)))
             w Hname Hd).
  set (w0 := {| fs := <[name := File (Some [])]> (fs w); quota := quota w;
                stdout := stdout w ++ deleted_notice w name |}).
  rewrite zip_seq_app, for_each_app. unfold mbind at 1, M_bind at 1.
  assert (Hloop : write_outcome name [] (ids_text delimiter columns (Some seqs) before) w0
                    (for_each (zip (seq 0 (length before)) before)
                              (save_ids_record name delimiter columns (Some seqs)) w0)).
  { apply save_ids_loop_outcome; [exact Hcols | | simpl; apply lookup_insert_eq].
    eapply Forall_impl; [apply (zip_seq_bound before 0)|].
    intros e He s [= <-]. right. simpl in He. lia. }
  destruct (for_each (zip (seq 0 (length before)) before) _ w0) as [r w1].
  destruct Hloop as [Hout [(Hr & Hfs & Hq1) | (_ & _ & Hq1)]]; simpl in *;
    [subst r | contradiction].
  specialize (Hq1 Hq).
  cbn [length seq zip_with for_each]. unfold mbind at 1, M_bind at 1.
  unfold save_ids_record.
  assert (Hfields :
            (match columns with
             | Some cols => lift (project_or_empty (split id_str) cols)
             | None => mret (split id_str)
             end : M (list str))
            = lift (Ok (id_fields columns id_str))).
  { unfold id_fields. destruct columns as [cols|]; [|reflexivity].
    now rewrite project_or_empty_total by now apply Hcols. }
  rewrite Hfields. unfold mbind at 1, M_bind at 1, lift at 1. cbv beta iota.
  unfold mbind at 1, M_bind at 1.
  rewrite (write_unlimited _ _ _ Hq1).
  erewrite file_text_lookup by (rewrite Hfs; apply lookup_insert_eq).
  destruct seqs as [|s0 seqs]; [contradiction|].
  unfold mbind, M_bind, lift.
  rewrite py_index_out_of_range by (rewrite Hlen; lia).
  cbn [is_OSError]. unfold set_fs. simpl.
  rewrite Hfs, Hout, Hq1, !insert_insert_eq. reflexivity.
Qed.

Lemma save_ids_to_file_short_sequences_witness :
  let w := world0 ∅ in
  save_ids_to_file ([u "a"] ++ u "b" :: [u "c"]) (u "out.txt") TAB None (Some [u "AC"]) w
  = (Raise IndexError,
     world0 {[ u "out.txt" := File (Some (u "a" ++ [LF] ++ u "AC" ++ [LF] ++ u "b" ++ [LF])) ]}).
Proof.
  intros w.
  rewrite (save_ids_to_file_short_sequences [u "a"] [u "c"] (u "b") (u "out.txt") TAB None
             [u "AC"] w).
  - vm_compute. reflexivity.
  - discriminate.
  - vm_compute. discriminate.
  - reflexivity.
  - discriminate.
  - discriminate.
  - reflexivity.
Defined.

(** ** All records, with columns *)

(** X17.  Without an identifier, and whatever the bounds, get_sequence_by_id
    with a selection of columns that every parsed identifier has writes all
    records, unsliced: for each one the selected fields joined by the
    delimiter, then the whole sequence. *)
Theorem get_sequence_by_id_all_columns (fasta_file content path delimiter : str)
    (start end_ : option Z) (columns : list Z) (w : world) :
  fs w !! fasta_file = Some (File (Some content)) ->
  columns <> [] ->
  Forall (fun r => Forall (fun i => - Z.of_nat (length (split r.1)) <= i
                                    < Z.of_nat (length (split r.1))) columns)
         (zip (parse_text content).1 (parse_text content).2) ->
  quota w = None -> path <> [] -> fs w !! path <> Some Dir ->
  get_sequence_by_id fasta_file None start end_ (Some path) delimiter (Some columns) true w
  = (Ok tt,
     set_fs w (<[path := File (Some (selected_text delimiter columns
                                       (zip (parse_text content).1 (parse_text content).2)))]>
                 (fs w))).
Proof.
  intros Hf Hne Hcols Hq Hp Hd.
  rewrite get_sequence_by_id_valid by (rewrite Hf; eauto).
  rewrite (parse_fasta_file_text _ _ _ Hf).
  destruct (parse_text content) as [all_ids all_sequences]. simpl in Hcols.
  rewrite try_except_all. destruct columns as [|c columns]; [contradiction|].
  unfold process, normalize_columns, save_sequences_to_file, mbind, M_bind.
  rewrite (open_w_ok _ _ Hp Hd).
  rewrite (for_each_save_record_columns _ _ _ _ _ _ []); try assumption.
  - unfold set_fs. simpl. now rewrite insert_insert_eq.
  - simpl. apply lookup_insert_eq.
Qed.

Lemma get_sequence_by_id_all_columns_witness :
  let content := text [">s1 len=4 dna"; "AC"; "GT"; ">s2 len=2 rna"; "UU"] in
  let w := world0 {[ u "all.fasta" := File (Some content) ]} in
  get_sequence_by_id (u "all.fasta") None (Some 9) (Some 1) (Some (u "all_ids.txt")) TAB
                     (Some [0; 1]) true w
  = (Ok tt,
     world0 {[ u "all.fasta" := File (Some content);
               u "all_ids.txt" :=
                 File (Some (u "s1" ++ TAB ++ u "len=4" ++ [LF] ++ u "ACGT" ++ [LF]
                             ++ u "s2" ++ TAB ++ u "len=2" ++ [LF] ++ u "UU" ++ [LF])) ]}).
Proof.
  intros content w.
  rewrite (get_sequence_by_id_all_columns (u "all.fasta") content (u "all_ids.txt") TAB
             (Some 9) (Some 1) [0; 1] w).
  - vm_compute. reflexivity.
  - vm_compute. reflexivity.
  - discriminate.
  - vm_compute. repeat constructor; intros; discriminate.
  - reflexivity.
  - discriminate.
  - vm_compute. discriminate.
Defined.

(** ** A directory in the place of the output file *)

(** X18.  When the file name is that of a directory, save_ids_to_file
    cannot remove it: the error is reported once, the removal in the except
    clause fails in the same way, and this second error reaches the caller.
    The directory is left as it was. *)
Theorem save_ids_to_file_directory (ids : list str) (filename delimiter : str)
    (columns : option (list Z)) (sequences : option (list str)) (w : world) :
  ids <> [] -> filename <> [] ->
  (forall cols, columns = Some cols -> Forall (fun i => 0 <= i) cols) ->
  fs w !! filename = Some Dir ->
  save_ids_to_file ids filename delimiter columns sequences w
  = (Raise (OSError EISDIR),
     add_notice w (PrintedExn (u "Error opening/writing to the file " ++ filename ++ u ": ")
                              (OSError EISDIR))).
Proof.
  intros Hids Hname Hcols Hd. unfold save_ids_to_file.
  rewrite bool_decide_eq_true_2 by exact Hids. cbn [negb].
  destruct filename as [|c filename]; [contradiction|]. cbn [truthy negb].
  set (name := c :: filename) in *.
  assert (Hneg : match columns with
                 | Some cols => existsb (fun i => (i <? 0)%Z) cols
                 | None => false
                 end = false).
  { destruct columns as [cols|]; [|reflexivity]. now apply existsb_negative, Hcols. }
  rewrite Hneg.
  unfold try_except, mbind, M_bind, path_exists, os_remove, print_exn, add_notice.
  rewrite bool_decide_eq_true_2 by (rewrite Hd; eauto).
  rewrite Hd. cbn [is_OSError]. cbv beta iota. simpl. now rewrite Hd.
Qed.

Lemma save_ids_to_file_directory_witness :
  let w := world0 {[ u "results" := Dir ]} in
  save_ids_to_file [u "a"] (u "results") TAB None None w
  = (Raise (OSError EISDIR),
     add_notice w (PrintedExn (u "Error opening/writing to the file results: ")
                              (OSError EISDIR))).
Proof.
  intros w.
  rewrite (save_ids_to_file_directory [u "a"] (u "results") TAB None None w).
  - vm_compute. reflexivity.
  - discriminate.
  - discriminate.
  - discriminate.
  - vm_compute. reflexivity.
Defined.
